(** * Code-review activity pipeline: collector, normaliser and filter

    A shallow embedding of [get_repos.py] (entity discovery, child-record
    collection with per-entity time budget and checkpoints, record
    normalisation) and of [build_dataset.py] (the filter stage), together
    with the properties stated about them.

    Conventions.
    - A Python computation that may raise is a value of [py A].
    - A dictionary with a fixed set of keys is a record; a key that the code
      reads with [.get] is a [jfield] (absent, [null], or a value); a key
      that is always present but may hold [null] is an [option].
    - [repo_pr_map] and the file system are [gmap]s keyed by strings.
    - The network, the clock and [time.sleep] are oracles over an abstract
      world; every call is also recorded in a log of events. Clock
      readings are integers, in seconds, like the budget they are compared
      with.
    - The two [while] loops take fuel, one unit per iteration; a loop that
      is still running when the fuel is spent yields [OutOfFuel].
    - [print] calls are not modelled: they influence nothing. Neither is
      the credential check at the top of [get_repos.py], which runs before
      any function does. *)

From Stdlib Require Import ZArith String Ascii Lia Bool.
From stdpp Require Import gmap strings list fin_maps pretty.

Local Open Scope string_scope.
Local Open Scope Z_scope.

(** ** Python values and exceptions *)

Module Py.

Inductive exn : Type :=
| TypeError
| ValueError
| AttributeError
| KeyError
| RequestException
| Exception.

Inductive py (A : Type) : Type :=
| Ret (a : A)
| Raise (e : exn).
Arguments Ret {A} a.
Arguments Raise {A} e.

Definition bind {A B} (m : py A) (k : A -> py B) : py B :=
  match m with
  | Ret a => k a
  | Raise e => Raise e
  end.

(** A value found under a dictionary key: the key may be missing, may hold
    [None], or may hold a value. *)
Inductive jfield (A : Type) : Type :=
| Absent
| Null
| Val (a : A).
Arguments Absent {A}.
Arguments Null {A}.
Arguments Val {A} a.

(** [d.get(k, default)]: only a missing key yields the default; a key
    holding [None] yields [None]. *)
Definition get_default {A} (f : jfield A) (default : A) : option A :=
  match f with
  | Absent => Some default
  | Null => None
  | Val a => Some a
  end.

(** Truth value of a string or [None]. *)
Definition truthy (s : option string) : bool :=
  match s with
  | None => false
  | Some EmptyString => false
  | Some (String _ _) => true
  end.

(** [l[:n]] for a Python integer [n]. *)
Definition slice_to {A} (n : Z) (l : list A) : list A :=
  if 0 <=? n then take (Z.to_nat n) l
  else take (length l - Z.to_nat (- n))%nat l.

(** [l[n:]] for a Python integer [n]. *)
Definition slice_from {A} (n : Z) (l : list A) : list A :=
  if 0 <=? n then drop (Z.to_nat n) l
  else drop (length l - Z.to_nat (- n))%nat l.

(** [s.replace("Z", "+00:00")] *)
Fixpoint replace_Z (s : string) : string :=
  match s with
  | EmptyString => EmptyString
  | String c s' =>
      if Ascii.eqb c "Z" then "+00:00" ++ replace_Z s'
      else String c (replace_Z s')
  end.

(** [datetime]: the instant in microseconds (since the epoch, in UTC for
    an offset-aware value; on the local calendar for a naive one). *)
Record datetime : Type := { instant : Z; aware : bool }.

(** [a - b] on datetimes is a [timedelta], here in microseconds; mixing
    naive and aware operands raises. *)
Definition dt_sub (a b : datetime) : py Z :=
  if Bool.eqb (aware a) (aware b) then Ret (instant a - instant b)
  else Raise TypeError.

(** [timedelta(minutes=m)] *)
Definition minutes (m : Z) : Z := m * 60 * 1000000.

End Py.
Import Py.

Notation "x <- m ;; k" := (Py.bind m (fun x => k))
  (at level 100, m at next level, right associativity,
   format "'[v' x  <-  m  ;;  '/' k ']'").

(** ** The canonical data model (files written by the collector) *)

Record PullRequest : Type := {
  title : option string;
  url : option string;
  state : option string;
  createdAt : option string;
  closedAt : option string;
  mergedAt : option string;
  reviewCount : option Z;
  numberOfFiles : option Z;
  additions : option Z;
  deletions : option Z;
  descriptionSize : option Z;
  participantsCount : option Z;
  commentsCount : option Z
}.

(** One element [{'repository': {...}}] of a dataset file. [pullRequests] is
    [None] when the key is missing. *)
Record Repository : Type := {
  nameWithOwner : string;
  stars : Z;
  repo_url : string;
  pullRequests : option (list PullRequest)
}.

(** What a JSON file of the pipeline holds. *)
Inductive File : Type :=
| FDataset (data : list Repository)
| FNames (names : list string).

(** * build_dataset.py *)

Module BuildDataset.

Section Filter.

(** [datetime.fromisoformat], a library function. *)
Variable fromisoformat : string -> py datetime.

(** [datetime.fromisoformat(x.replace("Z", "+00:00"))] *)
Definition parse (x : option string) : py datetime :=
  match x with
  | None => Raise AttributeError
  | Some s => fromisoformat (replace_Z s)
  end.

(** [parse(x) if x else None] *)
Definition parse_if (x : option string) : py (option datetime) :=
  if truthy x then d <- parse x ;; Ret (Some d) else Ret None.

(** [x > 0] for a JSON number or [null]. *)
Definition gt0 (x : option Z) : py bool :=
  match x with
  | None => Raise TypeError
  | Some n => Ret (0 <? n)
  end.

(** [(pr['reviewCount'] > 0) or (pr['commentsCount'] > 0)] *)
Definition has_reviews (pr : PullRequest) : py bool :=
  r <- gt0 (reviewCount pr) ;;
  if r then Ret true else gt0 (commentsCount pr).

(** Lines 38-42: the review duration, if the record is resolved. *)
Definition time_diff (created_at : datetime)
    (closed_at merged_at : option datetime) : py (option Z) :=
  match merged_at with
  | Some m => d <- dt_sub m created_at ;; Ret (Some d)
  | None =>
      match closed_at with
      | Some c => d <- dt_sub c created_at ;; Ret (Some d)
      | None => Ret None
      end
  end.

(** [time_diff and time_diff >= timedelta(minutes=10)]: a [timedelta] is
    false when it is zero. *)
Definition long_enough (td : option Z) : bool :=
  match td with
  | None => false
  | Some d => negb (d =? 0) && (minutes 10 <=? d)
  end.

(** Body of the inner loop (lines 30-46): does [pr] get appended? *)
Definition keeps (pr : PullRequest) : py bool :=
  created_at <- parse (createdAt pr) ;;
  closed_at <- parse_if (closedAt pr) ;;
  merged_at <- parse_if (mergedAt pr) ;;
  hr <- has_reviews pr ;;
  td <- time_diff created_at closed_at merged_at ;;
  Ret (hr && long_enough td).

(** The inner loop, [for pr in prs], over the list being built. *)
Fixpoint filter_prs_loop (prs filtered_pull_requests : list PullRequest)
    : py (list PullRequest) :=
  match prs with
  | [] => Ret filtered_pull_requests
  | pr :: rest =>
      k <- keeps pr ;;
      filter_prs_loop rest
        (if k then filtered_pull_requests ++ [pr]
         else filtered_pull_requests)
  end.

(** [repo['repository'].get('pullRequests', [])] *)
Definition prs_of (repo : Repository) : list PullRequest :=
  default [] (pullRequests repo).

Definition surviving (repo : Repository) : py (list PullRequest) :=
  filter_prs_loop (prs_of repo) [].

(** The outer loop, [for repo in data] (lines 22-61). *)
Fixpoint filter_repos_loop (data filtered_data : list Repository)
    (repos_names : list string) : py (list Repository * list string) :=
  match data with
  | [] => Ret (filtered_data, repos_names)
  | repo :: rest =>
      filtered_pull_requests <- surviving repo ;;
      if 20 <=? Z.of_nat (length filtered_pull_requests) then
        let filtered_repo_data :=
          {| nameWithOwner := nameWithOwner repo;
             stars := stars repo;
             repo_url := repo_url repo;
             pullRequests := Some filtered_pull_requests |} in
        filter_repos_loop rest (filtered_data ++ [filtered_repo_data])
          (repos_names ++ [nameWithOwner repo])
      else filter_repos_loop rest filtered_data repos_names
  end.

Definition filter_data (data : list Repository)
    : py (list Repository * list string) :=
  filter_repos_loop data [] [].

(** [json.load] followed by the shape the loops expect: a list of names
    is a list of strings, and indexing a string by ['repository']
    raises. *)
Definition load_dataset (f : File) : py (list Repository) :=
  match f with
  | FDataset data => Ret data
  | FNames [] => Ret []
  | FNames (_ :: _) => Raise TypeError
  end.

(** [filter_pull_requests(input_filename, output_filename)]: the file
    system it leaves, and whether it returned or raised. The two files
    are written only at the very end. *)
Definition filter_pull_requests (input_filename output_filename : string)
    (fs : gmap string File) : gmap string File * py unit :=
  match fs !! input_filename with
  | None => (fs, Ret tt)
  | Some f =>
      match (data <- load_dataset f ;; filter_data data) with
      | Raise e => (fs, Raise e)
      | Ret (filtered_data, repos_names) =>
          match filtered_data with
          | [] => (fs, Ret tt)
          | _ :: _ =>
              (<["repos_names.json" := FNames repos_names]>
                 (<[output_filename := FDataset filtered_data]> fs),
               Ret tt)
          end
      end
  end.

(** The [__main__] block: the two file names are fixed. *)
Definition main (fs : gmap string File) : gmap string File * py unit :=
  filter_pull_requests "repos_and_prs.json" "filtered_prs.json" fs.

End Filter.

End BuildDataset.

(** * get_repos.py *)

(** ** What the upstream API sends *)

Module Raw.

(** A nested [{ totalCount }] object. *)
Record Count : Type := { totalCount : jfield Z }.

(** A pull-request node as requested by the per-repository query. *)
Record Node : Type := {
  title : jfield string;
  url : jfield string;
  state : jfield string;
  createdAt : jfield string;
  closedAt : jfield string;
  mergedAt : jfield string;
  reviews : jfield Count;
  files : jfield Count;
  additions : jfield Z;
  deletions : jfield Z;
  body : jfield string;
  participants : jfield Count;
  comments : jfield Count
}.

(** An element of [edges] in a pull-request page. *)
Record Edge : Type := { node : jfield Node }.

(** [repo['node']] of an element of [edges] in a search page. *)
Record Repo : Type := {
  nameWithOwner : string;
  stargazerCount : Z;
  repo_url : string
}.

(** The empty dictionary [{}], as a count object and as a node. *)
Definition no_count : Count := {| totalCount := Absent |}.

Definition empty_node : Node :=
  {| title := Absent; url := Absent; state := Absent;
     createdAt := Absent; closedAt := Absent; mergedAt := Absent;
     reviews := Absent; files := Absent;
     additions := Absent; deletions := Absent; body := Absent;
     participants := Absent; comments := Absent |}.

End Raw.

Module GetRepos.

Definition START_INDEX : Z := 11.

(** The variable part of the per-repository query. *)
Record Query : Type := {
  q_owner : string;
  q_name : string;
  q_after : option string
}.

(** The JSON body of a response: either it has an ["errors"] key, or it
    is a page of [T]. *)
Inductive Body (T : Type) : Type :=
| Errors
| Page (edges : list T) (hasNextPage : bool) (endCursor : option string).
Arguments Errors {T}.
Arguments Page {T} edges hasNextPage endCursor.

(** What [requests.post] does: raise, or return a response. *)
Inductive Post (T : Type) : Type :=
| Timeout
| OtherError
| Response (status_code : Z) (json : Body T).
Arguments Timeout {T}.
Arguments OtherError {T}.
Arguments Response {T} status_code json.

(** What the program does to the outside world, in order: clock
    readings, requests with what came back, pauses, files written. *)
Inductive Event : Type :=
| EvTime (t : Z)
| EvSearch (after : option string) (response : Post Raw.Repo)
| EvPost (q : Query) (response : Post Raw.Edge)
| EvSleep (seconds : Z)
| EvWrite (filename : string) (content : File).

(** A request that did not deliver a page: the transport raised, the
    status is not 200, or the body carries an error list. *)
Definition failed {T} (response : Post T) : bool :=
  match response with
  | Timeout | OtherError => true
  | Response status_code data =>
      negb (status_code =? 200)
      || match data with Errors => true | Page _ _ _ => false end
  end.

(** The result of a loop that is run with fuel. *)
Inductive outcome (A : Type) : Type :=
| Done (a : A)
| Failed (e : exn)
| OutOfFuel.
Arguments Done {A} a.
Arguments Failed {A} e.
Arguments OutOfFuel {A}.

(** [s.split('/')] *)
Fixpoint split_slash (s : string) : list string :=
  match s with
  | EmptyString => [EmptyString]
  | String c s' =>
      if Ascii.eqb c "/" then EmptyString :: split_slash s'
      else match split_slash s' with
           | p :: ps => String c p :: ps
           | [] => [String c EmptyString]
           end
  end.

(** [owner, name = s.split('/')] *)
Definition owner_name (s : string) : py (string * string) :=
  match split_slash s with
  | [owner; name] => Ret (owner, name)
  | _ => Raise ValueError
  end.

(** [f'"{cursor}"' if cursor else "null"] *)
Definition after_of (cursor : option string) : option string :=
  if truthy cursor then cursor else None.

(** [x or {}] for a nested count object. *)
Definition or_empty (x : jfield Raw.Count) : Raw.Count :=
  match x with
  | Val c => c
  | Absent | Null => Raw.no_count
  end.

(** [len(pr_node.get('body', '') or '')] *)
Definition description_size (body : jfield string) : Z :=
  match body with
  | Val s => Z.of_nat (String.length s)
  | Absent | Null => Z.of_nat (String.length "")
  end.

(** Lines 196-218: one raw edge to one canonical record. [pr.get('node',
    {})] is [None] when the key holds [null], and [None.get] raises. *)
Definition normalize (pr : Raw.Edge) : py PullRequest :=
  match Raw.node pr with
  | Null => Raise AttributeError
  | (Absent | Val _) as n =>
      let pr_node := match n with Val x => x | _ => Raw.empty_node end in
      let files_info := or_empty (Raw.files pr_node) in
      let participants_info := or_empty (Raw.participants pr_node) in
      let comments_info := or_empty (Raw.comments pr_node) in
      let reviews_info := or_empty (Raw.reviews pr_node) in
      Ret {| title := get_default (Raw.title pr_node) "";
             url := get_default (Raw.url pr_node) "";
             state := get_default (Raw.state pr_node) "";
             createdAt := get_default (Raw.createdAt pr_node) "";
             closedAt := get_default (Raw.closedAt pr_node) "";
             mergedAt := get_default (Raw.mergedAt pr_node) "";
             reviewCount := get_default (Raw.totalCount reviews_info) 0;
             numberOfFiles := get_default (Raw.totalCount files_info) 0;
             additions := get_default (Raw.additions pr_node) 0;
             deletions := get_default (Raw.deletions pr_node) 0;
             descriptionSize := Some (description_size (Raw.body pr_node));
             participantsCount :=
               get_default (Raw.totalCount participants_info) 0;
             commentsCount :=
               get_default (Raw.totalCount comments_info) 0 |}
  end.

(** [for pr in pull_requests], appending to
    [repo_data['repository']['pullRequests']]. *)
Fixpoint normalize_loop (pull_requests : list Raw.Edge)
    (out : list PullRequest) : py (list PullRequest) :=
  match pull_requests with
  | [] => Ret out
  | pr :: rest =>
      pr_data <- normalize pr ;;
      normalize_loop rest (out ++ [pr_data])
  end.

(** [for repo in repos] of [save_repos_and_prs_to_json] (lines 177-223),
    building [data]. *)
Fixpoint build_data (repos : list Raw.Repo)
    (repo_pr_map : gmap string (list Raw.Edge))
    (data : list Repository) : py (list Repository) :=
  match repos with
  | [] => Ret data
  | repo :: rest =>
      let pull_requests :=
        default [] (repo_pr_map !! Raw.nameWithOwner repo) in
      match pull_requests with
      | [] => build_data rest repo_pr_map data
      | _ :: _ =>
          prs <- normalize_loop pull_requests [] ;;
          build_data rest repo_pr_map
            (data ++ [ {| nameWithOwner := Raw.nameWithOwner repo;
                          stars := Raw.stargazerCount repo;
                          repo_url := Raw.repo_url repo;
                          pullRequests := Some prs |} ])
      end
  end.

(** [f"repos_and_prs_partial_{index}.json"] *)
Definition partial_filename (index : Z) : string :=
  "repos_and_prs_partial_" ++ pretty index ++ ".json".

Section Collector.

(** The outside world: the API, the clock, and [time.sleep]. *)
Variable World : Type.
Variable search_post : option string -> World -> Post Raw.Repo * World.
Variable prs_post : Query -> World -> Post Raw.Edge * World.
Variable time_time : World -> Z * World.
Variable time_sleep : Z -> World -> World.

Record State : Type := { world : World; log : list Event }.

Definition record (e : Event) (w : World) (st : State) : State :=
  {| world := w; log := log st ++ [e] |}.

Definition now (st : State) : Z * State :=
  let (t, w) := time_time (world st) in (t, record (EvTime t) w st).

Definition post_search (after : option string) (st : State)
    : Post Raw.Repo * State :=
  let (r, w) := search_post after (world st) in
  (r, record (EvSearch after r) w st).

Definition post_prs (q : Query) (st : State) : Post Raw.Edge * State :=
  let (r, w) := prs_post q (world st) in (r, record (EvPost q r) w st).

Definition sleep (seconds : Z) (st : State) : State :=
  record (EvSleep seconds) (time_sleep seconds (world st)) st.

Definition write (filename : string) (content : File) (st : State)
    : State :=
  record (EvWrite filename content) (world st) st.

(** [get_top_200_repos]: the loop of lines 50-65 and the final slice.
    Nothing is caught here: a transport error propagates, a status other
    than 200 raises, and a body with an error list has no search data to
    index. *)
Fixpoint search_loop (fuel : nat) (repos : list Raw.Repo)
    (cursor : option string) (has_next_page : bool) (st : State)
    : outcome (list Raw.Repo * State) :=
  if has_next_page && (Z.of_nat (length repos) <? 200) then
    match fuel with
    | O => OutOfFuel
    | S fuel' =>
        let (response, st) := post_search (after_of cursor) st in
        match response with
        | Timeout | OtherError => Failed RequestException
        | Response status_code data =>
            if negb (status_code =? 200) then Failed Exception
            else
              match data with
              | Errors => Failed KeyError
              | Page edges hasNextPage endCursor =>
                  search_loop fuel' (repos ++ edges) endCursor hasNextPage
                    (sleep 1 st)
              end
        end
    end
  else Done (slice_to 200 repos, st).

Definition get_top_200_repos (fuel : nat) (st : State)
    : outcome (list Raw.Repo * State) :=
  search_loop fuel [] None true st.

(** [save_repos_and_prs_to_json(repos, repo_pr_map, json_filename)] *)
Definition save_repos_and_prs_to_json (repos : list Raw.Repo)
    (repo_pr_map : gmap string (list Raw.Edge)) (json_filename : string)
    (st : State) : py State :=
  data <- build_data repos repo_pr_map [] ;;
  Ret (write json_filename (FDataset data) st).

(** [repo_pr_map[key]] for a key that was set before. *)
Definition entry (repo_pr_map : gmap string (list Raw.Edge))
    (key : string) : list Raw.Edge :=
  default [] (repo_pr_map !! key).

(** The [while] loop of lines 123-156 for one repository. *)
Fixpoint pages_loop (fuel : nat) (max_prs_per_repo repo_timeout : Z)
    (repo_name_with_owner owner name : string) (start_time : Z)
    (cursor : option string) (has_next_page : bool)
    (repo_pr_map : gmap string (list Raw.Edge)) (st : State)
    : outcome (gmap string (list Raw.Edge) * State) :=
  if has_next_page
     && (Z.of_nat (length (entry repo_pr_map repo_name_with_owner))
         <? max_prs_per_repo)
  then
    match fuel with
    | O => OutOfFuel
    | S fuel' =>
        let (t, st) := now st in
        if repo_timeout <? t - start_time then Done (repo_pr_map, st)
        else
          let query := {| q_owner := owner; q_name := name;
                          q_after := after_of cursor |} in
          let (response, st) := post_prs query st in
          match response with
          | Timeout => Done (repo_pr_map, st)
          | OtherError => Done (repo_pr_map, st)
          | Response status_code data =>
              if negb (status_code =? 200) then Done (repo_pr_map, st)
              else
                match data with
                | Errors => Done (repo_pr_map, st)
                | Page edges hasNextPage endCursor =>
                    pages_loop fuel' max_prs_per_repo repo_timeout
                      repo_name_with_owner owner name start_time
                      endCursor hasNextPage
                      (<[repo_name_with_owner :=
                           (entry repo_pr_map repo_name_with_owner
                            ++ edges)%list]>
                         repo_pr_map)
                      (sleep 1 st)
                end
          end
    end
  else Done (repo_pr_map, st).

(** Lines 114-159: everything done for one repository before the
    checkpoint. *)
Definition collect_repo (fuel : nat) (max_prs_per_repo repo_timeout : Z)
    (repo : Raw.Repo) (repo_pr_map : gmap string (list Raw.Edge))
    (st : State) : outcome (gmap string (list Raw.Edge) * State) :=
  let repo_name_with_owner := Raw.nameWithOwner repo in
  match owner_name repo_name_with_owner with
  | Raise e => Failed e
  | Ret (owner, name) =>
      let repo_pr_map := <[repo_name_with_owner := []]> repo_pr_map in
      let (start_time, st) := now st in
      match pages_loop fuel max_prs_per_repo repo_timeout
              repo_name_with_owner owner name start_time None true
              repo_pr_map st with
      | Done (repo_pr_map, st) =>
          Done (<[repo_name_with_owner :=
                    slice_to max_prs_per_repo
                      (entry repo_pr_map repo_name_with_owner)]>
                  repo_pr_map, st)
      | Failed e => Failed e
      | OutOfFuel => OutOfFuel
      end
  end.

(** Lines 161-165: the partial save. *)
Definition checkpoint (repos : list Raw.Repo) (index : Z)
    (repo_pr_map : gmap string (list Raw.Edge)) (st : State) : py State :=
  if index mod 10 =? 0 then
    save_repos_and_prs_to_json (slice_to index repos) repo_pr_map
      (partial_filename index) st
  else Ret st.

(** The [for index, repo in enumerate(..., start=...)] loop: [todo] is
    what is left of [repos[START_INDEX-1:]], [index] the number of its
    head. *)
Fixpoint repos_loop (fuel : nat) (max_prs_per_repo repo_timeout : Z)
    (repos : list Raw.Repo) (index : Z) (todo : list Raw.Repo)
    (repo_pr_map : gmap string (list Raw.Edge)) (st : State)
    : outcome (gmap string (list Raw.Edge) * State) :=
  match todo with
  | [] => Done (repo_pr_map, st)
  | repo :: rest =>
      match collect_repo fuel max_prs_per_repo repo_timeout repo
              repo_pr_map st with
      | Done (repo_pr_map, st) =>
          match checkpoint repos index repo_pr_map st with
          | Ret st =>
              repos_loop fuel max_prs_per_repo repo_timeout repos
                (index + 1) rest repo_pr_map st
          | Raise e => Failed e
          end
      | Failed e => Failed e
      | OutOfFuel => OutOfFuel
      end
  end.

(** [get_pull_requests_for_repos], with the module constant
    [START_INDEX] as its first argument; [fuel] bounds the number of
    pages requested for one repository. *)
Definition get_pull_requests_for_repos (start_index : Z) (fuel : nat)
    (repos : list Raw.Repo) (max_repos max_prs_per_repo repo_timeout : Z)
    (st : State) : outcome (gmap string (list Raw.Edge) * State) :=
  repos_loop fuel max_prs_per_repo repo_timeout repos start_index
    (slice_from (start_index - 1) repos) ∅ st.

(** The main program. *)
Definition main (fuel : nat) (st : State) : outcome State :=
  match get_top_200_repos fuel st with
  | Done (repos, st) =>
      match get_pull_requests_for_repos START_INDEX fuel repos
              200 100 90 st with
      | Done (repo_pr_map, st) =>
          match save_repos_and_prs_to_json repos repo_pr_map
                  "repos_and_prs.json" st with
          | Ret st => Done st
          | Raise e => Failed e
          end
      | Failed e => Failed e
      | OutOfFuel => OutOfFuel
      end
  | Failed e => Failed e
  | OutOfFuel => OutOfFuel
  end.

End Collector.

Arguments world {World} s.
Arguments log {World} s.

End GetRepos.

(** * Instances used in the examples *)

Module Sample.

(** ** A parser of timestamps

    An instance of [datetime.fromisoformat] for the layout
    [YYYY-MM-DDTHH:MM:SS], alone (a naive value) or followed by the
    offset [+00:00]; this is what the upstream's timestamps look like
    after the replacement of [Z]. Anything else raises. *)

(** The value of a decimal digit. *)
Definition digit_of (c : ascii) : option Z :=
  let n := Z.of_nat (nat_of_ascii c) - 48 in
  if (0 <=? n) && (n <=? 9) then Some n else None.

Fixpoint number_of (s : string) (acc : Z) : option Z :=
  match s with
  | EmptyString => Some acc
  | String c s' =>
      match digit_of c with
      | Some d => number_of s' (10 * acc + d)
      | None => None
      end
  end.

Definition field (s : string) (pos len : nat) : option Z :=
  let t := substring pos len s in
  if (String.length t =? len)%nat then number_of t 0 else None.

Definition is_leap (y : Z) : bool :=
  ((y mod 4 =? 0) && negb (y mod 100 =? 0)) || (y mod 400 =? 0).

Definition days_in_month (y m : Z) : Z :=
  if m =? 2 then (if is_leap y then 29 else 28)
  else if (m =? 4) || (m =? 6) || (m =? 9) || (m =? 11) then 30
  else 31.

(** Days since 1970-01-01 of a date of the proleptic Gregorian
    calendar. *)
Definition days_from_civil (y m d : Z) : Z :=
  let y' := if m <=? 2 then y - 1 else y in
  let era := y' / 400 in
  let yoe := y' - era * 400 in
  let mp := (m + 9) mod 12 in
  let doy := (153 * mp + 2) / 5 + d - 1 in
  let doe := yoe * 365 + yoe / 4 - yoe / 100 + doy in
  era * 146097 + doe - 719468.

Definition separators_ok (s : string) : bool :=
  String.eqb (substring 4 1 s) "-" && String.eqb (substring 7 1 s) "-"
  && (String.length (substring 10 1 s) =? 1)%nat
  && String.eqb (substring 13 1 s) ":"
  && String.eqb (substring 16 1 s) ":".

Definition fromisoformat (s : string) : py datetime :=
  match field s 0 4, field s 5 2, field s 8 2,
        field s 11 2, field s 14 2, field s 17 2 with
  | Some y, Some mo, Some d, Some h, Some mi, Some sec =>
      if separators_ok s
         && (1 <=? y) && (1 <=? mo) && (mo <=? 12)
         && (1 <=? d) && (d <=? days_in_month y mo)
         && (h <? 24) && (mi <? 60) && (sec <? 60)
      then
        let seconds :=
          ((days_from_civil y mo d * 24 + h) * 60 + mi) * 60 + sec in
        let tail := substring 19 (String.length s - 19) s in
        if String.eqb tail "" then
          Ret {| instant := seconds * 1000000; aware := false |}
        else if String.eqb tail "+00:00" then
          Ret {| instant := seconds * 1000000; aware := true |}
        else Raise ValueError
      else Raise ValueError
  | _, _, _, _, _, _ => Raise ValueError
  end.

(** ** Sample records and files *)

Definition two_digits (n : Z) : string :=
  if n <? 10 then "0" ++ pretty n else pretty n.

(** A pull request with one review, opened at noon and merged
    [minutes] minutes later (less than an hour). *)
Definition merged_pr (minutes : Z) : PullRequest :=
  {| title := Some "Fix typo"; url := Some "https://example.org/pr/1";
     state := Some "MERGED";
     createdAt := Some "2024-03-01T12:00:00Z";
     closedAt := Some ("2024-03-01T12:" ++ two_digits minutes ++ ":00Z");
     mergedAt := Some ("2024-03-01T12:" ++ two_digits minutes ++ ":00Z");
     reviewCount := Some 1; numberOfFiles := Some 2;
     additions := Some 10; deletions := Some 3;
     descriptionSize := Some 0; participantsCount := Some 2;
     commentsCount := Some 0 |}.

(** An unresolved pull request: neither merged nor closed. *)
Definition open_pr : PullRequest :=
  {| title := Some "WIP"; url := Some "https://example.org/pr/2";
     state := Some "OPEN";
     createdAt := Some "2024-03-01T12:00:00Z";
     closedAt := None; mergedAt := None;
     reviewCount := Some 7; numberOfFiles := Some 1;
     additions := Some 1; deletions := Some 0;
     descriptionSize := Some 12; participantsCount := Some 3;
     commentsCount := Some 9 |}.

(** A repository with [good] records that took 30 minutes and [bad]
    records that took 5. *)
Definition repo_with (name : string) (good bad : nat) : Repository :=
  {| nameWithOwner := name; stars := 1000;
     repo_url := "https://example.org/" ++ name;
     pullRequests :=
       Some (replicate good (merged_pr 30)
             ++ replicate bad (merged_pr 5))%list |}.

(** ** A scripted upstream

    The world is the clock, in seconds. Repositories of owner [down]
    answer 502, those of [errs] an error list, those of [late] time
    out, those of [slow] take 100 seconds a page; any other repository
    serves pages of twenty records for as long as it is asked. *)
Definition World : Type := Z.

Definition time_time (w : World) : Z * World := (w, w).

Definition time_sleep (seconds : Z) (w : World) : World := w + seconds.

Definition raw_pr (n : Z) : Raw.Edge :=
  {| Raw.node := Val
       {| Raw.title := Val ("PR " ++ pretty n);
          Raw.url := Val ("https://example.org/pr/" ++ pretty n);
          Raw.state := Val "MERGED";
          Raw.createdAt := Val "2024-03-01T12:00:00Z";
          Raw.closedAt := Val "2024-03-01T12:30:00Z";
          Raw.mergedAt := Val "2024-03-01T12:30:00Z";
          Raw.reviews := Val {| Raw.totalCount := Val 2 |};
          Raw.files := Null;
          Raw.additions := Val 10;
          Raw.deletions := Val 4;
          Raw.body := Null;
          Raw.participants := Val {| Raw.totalCount := Val 3 |};
          Raw.comments := Absent |} |}.

Definition page_of_20 : list Raw.Edge := raw_pr <$> seqZ 1 20.

(** A record outside the upstream's schema: its additions are [null]. *)
Definition null_additions : Raw.Edge :=
  {| Raw.node := Val
       {| Raw.title := Absent; Raw.url := Absent; Raw.state := Absent;
          Raw.createdAt := Absent; Raw.closedAt := Absent;
          Raw.mergedAt := Absent; Raw.reviews := Absent;
          Raw.files := Absent; Raw.additions := Null;
          Raw.deletions := Absent; Raw.body := Absent;
          Raw.participants := Absent; Raw.comments := Absent |} |}.

Definition prs_post (q : GetRepos.Query) (w : World)
    : GetRepos.Post Raw.Edge * World :=
  let page := GetRepos.Page page_of_20 true (Some "next") in
  if String.eqb (GetRepos.q_owner q) "down" then
    (GetRepos.Response 502 GetRepos.Errors, w + 1)
  else if String.eqb (GetRepos.q_owner q) "errs" then
    (GetRepos.Response 200 GetRepos.Errors, w + 1)
  else if String.eqb (GetRepos.q_owner q) "late" then
    (GetRepos.Timeout, w + 20)
  else if String.eqb (GetRepos.q_owner q) "slow" then
    (GetRepos.Response 200 page, w + 100)
  else (GetRepos.Response 200 page, w + 1).

Definition repo_named (name : string) : Raw.Repo :=
  {| Raw.nameWithOwner := name; Raw.stargazerCount := 5000;
     Raw.repo_url := "https://example.org/" ++ name |}.

(** Ten repositories, the third of which is down. *)
Definition ten_repos : list Raw.Repo :=
  repo_named <$>
    ["org/r1"; "org/r2"; "down/r3"; "org/r4"; "org/r5";
     "org/r6"; "org/r7"; "org/r8"; "org/r9"; "org/r10"].

(** The search serves two pages of 150 repositories. *)
Definition numbered_repo (n : Z) : Raw.Repo :=
  repo_named ("org/n" ++ pretty n).

Definition search_post (after : option string) (w : World)
    : GetRepos.Post Raw.Repo * World :=
  match after with
  | None =>
      (GetRepos.Response 200
         (GetRepos.Page (numbered_repo <$> seqZ 1 150) true (Some "p2")),
       w + 1)
  | Some _ =>
      (GetRepos.Response 200
         (GetRepos.Page (numbered_repo <$> seqZ 151 150) true (Some "p3")),
       w + 1)
  end.

Definition start : GetRepos.State World :=
  {| GetRepos.world := 0; GetRepos.log := [] |}.

Definition get_top_200_repos :=
  GetRepos.get_top_200_repos World search_post time_sleep.

Definition get_pull_requests_for_repos :=
  GetRepos.get_pull_requests_for_repos World prs_post time_time time_sleep.

(** What a completed run returned, and the state it left. *)
Definition value {A} (d : A)
    (o : GetRepos.outcome (A * GetRepos.State World)) : A :=
  match o with
  | GetRepos.Done (a, _) => a
  | _ => d
  end.

Definition final {A} (o : GetRepos.outcome (A * GetRepos.State World))
    : GetRepos.State World :=
  match o with
  | GetRepos.Done (_, st) => st
  | _ => start
  end.

(** The search, then the collection over the ten repositories from the
    first one on. *)
Definition discovery := get_top_200_repos 5 start.

Definition collection :=
  get_pull_requests_for_repos 1 10 ten_repos 200 100 90 start.

(** Two input files for the filter, and a file system holding one of
    them. *)
Definition dataset : list Repository :=
  [repo_with "a/b" 22 3; repo_with "c/d" 15 10].

Definition filtered_dataset : list Repository :=
  [ {| nameWithOwner := "a/b"; stars := 1000;
       repo_url := "https://example.org/a/b";
       pullRequests := Some (replicate 22 (merged_pr 30)) |} ].

Definition small_dataset : list Repository := [repo_with "c/d" 15 10].

Definition disk (data : list Repository) : gmap string File :=
  {[ "repos_and_prs.json" := FDataset data ]}.

(** A search that finds twelve repositories on a single page, and the
    whole program run against it. *)
Definition small_search_post (after : option string) (w : World)
    : GetRepos.Post Raw.Repo * World :=
  (GetRepos.Response 200
     (GetRepos.Page (numbered_repo <$> seqZ 1 12) false None), w + 1).

Definition main_run :=
  GetRepos.main World small_search_post prs_post time_time time_sleep
    10 start.

(** The state a run of the whole program left. *)
Definition ended (o : GetRepos.outcome (GetRepos.State World))
    : GetRepos.State World :=
  match o with
  | GetRepos.Done st => st
  | _ => start
  end.

(** Whether a run was cut short for lack of fuel. *)
Definition out_of_fuel {A} (o : GetRepos.outcome A) : bool :=
  match o with
  | GetRepos.OutOfFuel => true
  | _ => false
  end.

(** One repository collected on its own. *)
Definition one_repo :=
  GetRepos.collect_repo World prs_post time_time time_sleep 10 100 90
    (repo_named "org/r1") ∅ start.

(** A second repository collected after the first, and what a save
    would then hold. *)
Definition two_repos :=
  GetRepos.repos_loop World prs_post time_time time_sleep 10 100 90
    ten_repos 2 [repo_named "org/r2"] (value ∅ one_repo) (final one_repo).

Definition got {A} (d : A) (x : py A) : A :=
  match x with
  | Ret a => a
  | Raise _ => d
  end.

Definition saved_after_one : py (list Repository) :=
  GetRepos.build_data [repo_named "org/r1"] (value ∅ one_repo) [].

Definition saved_after_two : py (list Repository) :=
  GetRepos.build_data [repo_named "org/r1"; repo_named "org/r2"]
    (value ∅ two_repos) [].

(** A pull request still open when it was fetched: no close time, and
    a merge time that is [null]. *)
Definition open_raw : Raw.Edge :=
  {| Raw.node := Val
       {| Raw.title := Val "WIP"; Raw.url := Val "https://example.org/pr/9";
          Raw.state := Val "OPEN";
          Raw.createdAt := Val "2024-03-01T12:00:00Z";
          Raw.closedAt := Absent; Raw.mergedAt := Null;
          Raw.reviews := Val {| Raw.totalCount := Val 4 |};
          Raw.files := Val {| Raw.totalCount := Val 1 |};
          Raw.additions := Val 1; Raw.deletions := Val 1;
          Raw.body := Val "work in progress";
          Raw.participants := Val {| Raw.totalCount := Val 2 |};
          Raw.comments := Val {| Raw.totalCount := Val 6 |} |} |}.

(** A record in which a pull request has no node. *)
Definition broken_map : gmap string (list Raw.Edge) :=
  {[ "org/r1" := [raw_pr 1; {| Raw.node := Null |}] ]}.

(** A record whose creation time cannot be read. *)
Definition undated_pr : PullRequest :=
  {| title := Some "No date"; url := Some "https://example.org/pr/3";
     state := Some "CLOSED";
     createdAt := None; closedAt := None; mergedAt := None;
     reviewCount := Some 1; numberOfFiles := Some 1;
     additions := Some 1; deletions := Some 1;
     descriptionSize := Some 0; participantsCount := Some 1;
     commentsCount := Some 1 |}.

Definition spoiled_dataset : list Repository :=
  [repo_with "a/b" 22 3;
   {| nameWithOwner := "e/f"; stars := 10;
      repo_url := "https://example.org/e/f";
      pullRequests := Some [undated_pr] |}].

End Sample.

(** * The properties, as the specification words them *)

Module Spec.

Section Survival.

Variable fromisoformat : string -> py datetime.

(** The moment a timestamp field denotes, when it has one. *)
Definition moment (x : option string) : option datetime :=
  match BuildDataset.parse fromisoformat x with
  | Ret d => Some d
  | Raise _ => None
  end.

(** Resolution time: [mergedAt] if present, else [closedAt] if present,
    else none. *)
Definition resolution_time (pr : PullRequest) : option datetime :=
  if truthy (mergedAt pr) then moment (mergedAt pr)
  else if truthy (closedAt pr) then moment (closedAt pr)
  else None.

Definition positive (x : option Z) : bool :=
  match x with
  | Some n => 0 <? n
  | None => false
  end.

(** The survival predicate: engagement, and at least ten minutes from
    creation to resolution. *)
Definition survives (pr : PullRequest) : bool :=
  (positive (reviewCount pr) || positive (commentsCount pr))
  && match resolution_time pr, moment (createdAt pr) with
     | Some r, Some c => minutes 10 <=? instant r - instant c
     | _, _ => false
     end.

Definition defined {A} (x : option A) : bool :=
  match x with
  | Some _ => true
  | None => false
  end.

(** A timestamp field that is absent, or that parses to a moment which
    can be compared with [c]. *)
Definition comparable (c : datetime) (x : option string) : bool :=
  if truthy x then
    match BuildDataset.parse fromisoformat x with
    | Ret d => Bool.eqb (aware d) (aware c)
    | Raise _ => false
    end
  else true.

(** A record the filter can read: its creation time parses, the
    timestamps that are present parse and are comparable with it, and
    the two engagement counts are numbers. *)
Definition readable (pr : PullRequest) : bool :=
  match BuildDataset.parse fromisoformat (createdAt pr) with
  | Ret c =>
      comparable c (closedAt pr) && comparable c (mergedAt pr)
      && defined (reviewCount pr) && defined (commentsCount pr)
  | Raise _ => false
  end.

Definition readable_repo (repo : Repository) : bool :=
  forallb readable (BuildDataset.prs_of repo).

(** The surviving records of a repository. *)
Definition survivors (repo : Repository) : list PullRequest :=
  List.filter survives (BuildDataset.prs_of repo).

(** What the filter keeps of a repository, if it keeps it. *)
Definition retained (repo : Repository) : option Repository :=
  if 20 <=? Z.of_nat (length (survivors repo)) then
    Some {| nameWithOwner := nameWithOwner repo;
            stars := stars repo;
            repo_url := repo_url repo;
            pullRequests := Some (survivors repo) |}
  else None.

End Survival.

Section Traces.

Import GetRepos.

(** In the events of one repository's page loop, every request comes
    right after a clock reading that is within the budget. *)
Fixpoint within_budget (repo_timeout start_time : Z) (tr : list Event)
    : bool :=
  match tr with
  | [] => true
  | EvTime t :: EvPost _ _ :: tr' =>
      (t - start_time <=? repo_timeout)
      && within_budget repo_timeout start_time tr'
  | EvPost _ _ :: _ => false
  | _ :: tr' => within_budget repo_timeout start_time tr'
  end.

(** In the events of one repository's page loop, a request that fails
    is the last thing that happens. *)
Fixpoint failure_is_final (tr : list Event) : bool :=
  match tr with
  | [] => true
  | EvPost _ r :: tr' =>
      if failed r then match tr' with [] => true | _ :: _ => false end
      else failure_is_final tr'
  | _ :: tr' => failure_is_final tr'
  end.

(** The events of the repository loop: for each repository in turn,
    the reading of its start time, the events of its page loop, and
    at most one file written. *)
Inductive segments (P : Z -> list Event -> Prop)
    : list Raw.Repo -> list Event -> Prop :=
| segments_nil : segments P [] []
| segments_cons repo rest start_time pages saved tr :
    P start_time pages ->
    (saved = [] \/ exists f c, saved = [EvWrite f c]) ->
    segments P rest tr ->
    segments P (repo :: rest)
      (EvTime start_time :: pages ++ saved ++ tr)%list.

(** A clock that behaves: a reading lies between the time before and
    the time after it, a request does not turn the clock back, and a
    pause lasts at least as long as asked. *)
Definition steady_clock {World : Type}
    (prs_post : Query -> World -> Post Raw.Edge * World)
    (time_time : World -> Z * World) (time_sleep : Z -> World -> World)
    (clock : World -> Z) : Prop :=
  (forall w, clock w <= fst (time_time w)
             /\ fst (time_time w) <= clock (snd (time_time w)))
  /\ (forall q w, clock w <= clock (snd (prs_post q w)))
  /\ (forall s w, clock w + s <= clock (time_sleep s w)).

(** The names of the files written, in order. *)
Definition written (tr : list Event) : list string :=
  omap (fun e => match e with EvWrite f _ => Some f | _ => None end) tr.


End Traces.

Section Normalisation.

(** A number that is missing or present, but not [null]. *)
Definition number_ok (x : jfield Z) : bool :=
  match x with
  | Null => false
  | Absent | Val _ => true
  end.

Definition count_ok (x : jfield Raw.Count) : bool :=
  match x with
  | Val c => number_ok (Raw.totalCount c)
  | Absent | Null => true
  end.

(** A sub-object that is not there: the key is missing or holds
    [null]. *)
Definition missing {A} (x : jfield A) : bool :=
  match x with
  | Val _ => false
  | Absent | Null => true
  end.

(** A raw record as the upstream's schema allows it: the four nested
    objects and the body may be missing or [null]; the numbers that are
    there are numbers. *)
Definition conforms (pr : Raw.Edge) : bool :=
  match Raw.node pr with
  | Null => false
  | Absent => true
  | Val n =>
      number_ok (Raw.additions n) && number_ok (Raw.deletions n)
      && count_ok (Raw.reviews n) && count_ok (Raw.files n)
      && count_ok (Raw.participants n) && count_ok (Raw.comments n)
  end.

Definition numeric_fields (pr : PullRequest) : list (option Z) :=
  [reviewCount pr; numberOfFiles pr; additions pr; deletions pr;
   descriptionSize pr; participantsCount pr; commentsCount pr].

End Normalisation.

Section Checkpoints.

Import GetRepos.




(** The indices at which the loop saves, when it numbers [n]
    repositories from [start_index]. *)
Definition checkpoint_indices (start_index : Z) (n : nat) : list Z :=
  List.filter (fun i => i mod 10 =? 0) (seqZ start_index (Z.of_nat n)).

(** A repository makes it into a saved file when the map holds records
    for it. *)
Definition has_records (repo_pr_map : gmap string (list Raw.Edge))
    (repo : Raw.Repo) : bool :=
  match repo_pr_map !! Raw.nameWithOwner repo with
  | Some (_ :: _) => true
  | _ => false
  end.

(** [e] is what a saved file holds for [repo] when the map is
    [repo_pr_map]: the repository's identity and the normalisation, in
    order, of the records the map holds for it. *)
Definition saved_as (repo_pr_map : gmap string (list Raw.Edge))
    (repo : Raw.Repo) (e : Repository) : Prop :=
  nameWithOwner e = Raw.nameWithOwner repo
  /\ stars e = Raw.stargazerCount repo
  /\ repo_url e = Raw.repo_url repo
  /\ exists prs,
       pullRequests e = Some prs
       /\ Forall2 (fun edge pr => normalize edge = Ret pr)
            (default [] (repo_pr_map !! Raw.nameWithOwner repo)) prs.

End Checkpoints.

End Spec.

(** * Further vocabulary for what the loops do *)

Module Facts.

Import GetRepos.

(** Whether a string has a slash in it. *)
Fixpoint has_slash (s : string) : bool :=
  match s with
  | EmptyString => false
  | String c s' => Ascii.eqb c "/" || has_slash s'
  end.

(** The records a response delivers: those of a page that came with
    status 200. *)
Definition delivered {T} (response : Post T) : list T :=
  match response with
  | Response status_code (Page edges _ _) =>
      if status_code =? 200 then edges else []
  | _ => []
  end.

(** The pull requests delivered along a sequence of events, in order. *)
Fixpoint pages_of (tr : list Event) : list Raw.Edge :=
  match tr with
  | [] => []
  | EvPost _ r :: tr' => (delivered r ++ pages_of tr')%list
  | _ :: tr' => pages_of tr'
  end.

(** The repositories delivered along a sequence of events, in order. *)
Fixpoint search_pages (tr : list Event) : list Raw.Repo :=
  match tr with
  | [] => []
  | EvSearch _ r :: tr' => (delivered r ++ search_pages tr')%list
  | _ :: tr' => search_pages tr'
  end.

(** No search request failed. *)
Fixpoint searches_succeeded (tr : list Event) : bool :=
  match tr with
  | [] => true
  | EvSearch _ r :: tr' => negb (failed r) && searches_succeeded tr'
  | _ :: tr' => searches_succeeded tr'
  end.

(** The discipline of the page loop, replayed over its events from the
    loop variables [cursor] and [has_next_page] with [have] records in
    hand: a request is made only when a next page was announced and
    fewer than [max_prs] records are held, and it asks for the page after
    the current cursor. *)
Fixpoint paged (max_prs have : Z) (cursor : option string)
    (has_next_page : bool) (tr : list Event) : bool :=
  match tr with
  | [] => true
  | EvPost q r :: tr' =>
      has_next_page && (have <? max_prs)
      && bool_decide (q_after q = after_of cursor)
      && match r with
         | Response status_code (Page edges hasNextPage endCursor) =>
             if status_code =? 200 then
               paged max_prs (have + Z.of_nat (length edges)) endCursor
                 hasNextPage tr'
             else paged max_prs have cursor has_next_page tr'
         | _ => paged max_prs have cursor has_next_page tr'
         end
  | _ :: tr' => paged max_prs have cursor has_next_page tr'
  end.

(** The same discipline for the search loop, with its cap of 200. *)
Fixpoint search_paged (have : Z) (cursor : option string)
    (has_next_page : bool) (tr : list Event) : bool :=
  match tr with
  | [] => true
  | EvSearch after r :: tr' =>
      has_next_page && (have <? 200)
      && bool_decide (after = after_of cursor)
      && match r with
         | Response status_code (Page edges hasNextPage endCursor) =>
             if status_code =? 200 then
               search_paged (have + Z.of_nat (length edges)) endCursor
                 hasNextPage tr'
             else search_paged have cursor has_next_page tr'
         | _ => search_paged have cursor has_next_page tr'
         end
  | _ :: tr' => search_paged have cursor has_next_page tr'
  end.

(** Every page delivered is followed at once by a pause of one
    second. *)
Definition pause_next (tr : list Event) : bool :=
  match tr with
  | EvSleep seconds :: _ => seconds =? 1
  | _ => false
  end.

Fixpoint paused (tr : list Event) : bool :=
  match tr with
  | [] => true
  | EvPost _ r :: tr' => (failed r || pause_next tr') && paused tr'
  | EvSearch _ r :: tr' => (failed r || pause_next tr') && paused tr'
  | _ :: tr' => paused tr'
  end.

(** A response that is not an empty page. *)
Definition brings_something {T} (response : Post T) : bool :=
  match response with
  | Response status_code (Page [] _ _) => negb (status_code =? 200)
  | _ => true
  end.

(** A timestamp of a raw record that is missing, [null] or empty. *)
Definition unset (x : jfield string) : bool :=
  match x with
  | Val (String _ _) => false
  | _ => true
  end.

(** The count a nested object of a raw record stands for. *)
Definition raw_count (x : jfield Raw.Count) : Z :=
  match x with
  | Val c =>
      match Raw.totalCount c with
      | Val n => n
      | Absent | Null => 0
      end
  | Absent | Null => 0
  end.

(** Whether a string has a capital Z in it. *)
Fixpoint has_Z (s : string) : bool :=
  match s with
  | EmptyString => false
  | String c s' => Ascii.eqb c "Z" || has_Z s'
  end.

(** The same record with every [Z] of its three timestamps written as
    the offset [+00:00]. *)
Definition with_offsets (pr : PullRequest) : PullRequest :=
  {| title := title pr; url := url pr; state := state pr;
     createdAt := replace_Z <$> createdAt pr;
     closedAt := replace_Z <$> closedAt pr;
     mergedAt := replace_Z <$> mergedAt pr;
     reviewCount := reviewCount pr; numberOfFiles := numberOfFiles pr;
     additions := additions pr; deletions := deletions pr;
     descriptionSize := descriptionSize pr;
     participantsCount := participantsCount pr;
     commentsCount := commentsCount pr |}.


End Facts.

(** * Verification of the filter stage *)

Local Open Scope list_scope.

Ltac bind_inv H :=
  repeat match type of H with
  | Py.bind ?m _ = Ret _ =>
      let E := fresh "E" in destruct m eqn:E; simpl in H; [|discriminate H]
  end.

Section FilterProofs.

Variable fromisoformat : string -> py datetime.

Local Abbreviation parse := (BuildDataset.parse fromisoformat).
Local Abbreviation parse_if := (BuildDataset.parse_if fromisoformat).
Local Abbreviation keeps := (BuildDataset.keeps fromisoformat).
Local Abbreviation filter_prs_loop :=
  (BuildDataset.filter_prs_loop fromisoformat).
Local Abbreviation surviving := (BuildDataset.surviving fromisoformat).
Local Abbreviation filter_repos_loop :=
  (BuildDataset.filter_repos_loop fromisoformat).
Local Abbreviation filter_data := (BuildDataset.filter_data fromisoformat).
Local Abbreviation filter_pull_requests :=
  (BuildDataset.filter_pull_requests fromisoformat).
Local Abbreviation survives := (Spec.survives fromisoformat).
Local Abbreviation survivors := (Spec.survivors fromisoformat).
Local Abbreviation retained := (Spec.retained fromisoformat).
Local Abbreviation readable := (Spec.readable fromisoformat).
Local Abbreviation readable_repo := (Spec.readable_repo fromisoformat).

Lemma parse_if_Ret x o :
  parse_if x = Ret o ->
  if truthy x then exists d, parse x = Ret d /\ o = Some d else o = None.
Proof.
  unfold BuildDataset.parse_if.
  destruct (truthy x); [|congruence].
  destruct (parse x) as [d|]; simpl; [|discriminate].
  intros [= <-]. eauto.
Qed.

Lemma has_reviews_positive pr b :
  BuildDataset.has_reviews pr = Ret b ->
  b = Spec.positive (reviewCount pr) || Spec.positive (commentsCount pr).
Proof.
  unfold BuildDataset.has_reviews, BuildDataset.gt0, Spec.positive.
  destruct (reviewCount pr) as [r|]; simpl; [|discriminate].
  destruct (0 <? r); simpl; [congruence|].
  destruct (commentsCount pr); congruence.
Qed.

Lemma long_enough_ge d :
  BuildDataset.long_enough (Some d) = (minutes 10 <=? d).
Proof.
  unfold BuildDataset.long_enough, minutes.
  destruct (Z.eqb_spec d 0) as [->|]; simpl; [reflexivity|reflexivity].
Qed.

Lemma time_diff_Some x c o :
  (d <- dt_sub x c ;; Ret (Some d)) = Ret o ->
  BuildDataset.long_enough o = (minutes 10 <=? instant x - instant c).
Proof.
  unfold dt_sub. destruct (Bool.eqb (aware x) (aware c)); simpl;
    [|discriminate].
  intros [= <-]. apply long_enough_ge.
Qed.

(** The loop body decides exactly the survival predicate. *)
Lemma keeps_survives pr b : keeps pr = Ret b -> b = survives pr.
Proof.
  unfold BuildDataset.keeps. intros H. bind_inv H.
  injection H as <-.
  apply parse_if_Ret in E0, E1. apply has_reviews_positive in E2.
  unfold Spec.survives, Spec.resolution_time, Spec.moment.
  rewrite E, <- E2. f_equal.
  unfold BuildDataset.time_diff in E3.
  destruct (truthy (mergedAt pr)).
  - destruct E1 as (m & -> & ->). eauto using time_diff_Some.
  - subst a1. destruct (truthy (closedAt pr)).
    + destruct E0 as (m & -> & ->). eauto using time_diff_Some.
    + subst a0. injection E3 as <-. reflexivity.
Qed.

Lemma comparable_parse_if c x :
  Spec.comparable fromisoformat c x = true ->
  exists o, parse_if x = Ret o
            /\ forall d, o = Some d -> aware d = aware c.
Proof.
  unfold Spec.comparable, BuildDataset.parse_if.
  destruct (truthy x).
  - destruct (parse x) as [d|]; [|discriminate]. simpl. intros Hd.
    eexists; split; [reflexivity|]. intros ? [= <-].
    by apply eqb_prop.
  - intros _. eexists; split; [reflexivity|]. discriminate.
Qed.

(** A readable record never makes the loop body raise. *)
Lemma readable_keeps pr :
  readable pr = true -> exists b, keeps pr = Ret b.
Proof.
  unfold Spec.readable, BuildDataset.keeps.
  destruct (parse (createdAt pr)) as [c|]; [|discriminate].
  rewrite !andb_true_iff. intros [[[Hc Hm] Hr] Hk].
  destruct (comparable_parse_if _ _ Hc) as (oc & -> & Hoc).
  destruct (comparable_parse_if _ _ Hm) as (om & -> & Hom).
  simpl. unfold BuildDataset.has_reviews, BuildDataset.gt0.
  destruct (reviewCount pr) as [r|]; [|discriminate].
  destruct (commentsCount pr) as [k|]; [|discriminate]. simpl.
  assert (exists hr, (if 0 <? r then Ret true else Ret (0 <? k)) = Ret hr)
    as [hr ->] by (destruct (0 <? r); eauto).
  simpl. unfold BuildDataset.time_diff, dt_sub.
  destruct om as [m|]; [rewrite (Hom m eq_refl), eqb_reflx; simpl; eauto|].
  destruct oc as [m|]; [rewrite (Hoc m eq_refl), eqb_reflx; simpl; eauto|].
  simpl. eauto.
Qed.

(** The inner loop appends the survivors to what was collected. *)
Lemma filter_prs_loop_filter prs acc out :
  filter_prs_loop prs acc = Ret out ->
  out = (acc ++ List.filter survives prs)%list.
Proof.
  revert acc. induction prs as [|pr prs IH]; simpl; intros acc H.
  - injection H as <-. by rewrite app_nil_r.
  - bind_inv H. apply keeps_survives in E. subst a.
    apply IH in H. subst out.
    destruct (survives pr); [by rewrite <- app_assoc|done].
Qed.

Lemma filter_prs_loop_readable prs acc :
  forallb readable prs = true ->
  exists out, filter_prs_loop prs acc = Ret out.
Proof.
  revert acc. induction prs as [|pr prs IH]; simpl; intros acc H; [eauto|].
  apply andb_true_iff in H as [Hpr H].
  destruct (readable_keeps pr Hpr) as [b ->]. simpl. by apply IH.
Qed.

Lemma filter_prs_loop_kept prs acc out :
  filter_prs_loop prs acc = Ret out ->
  exists kept, out = (acc ++ kept)%list
               /\ Forall (fun pr => keeps pr = Ret true) kept.
Proof.
  revert acc. induction prs as [|pr prs IH]; simpl; intros acc H.
  - injection H as <-. exists []. by rewrite app_nil_r.
  - bind_inv H. destruct (IH _ H) as (kept & -> & Hk). destruct a.
    + exists (pr :: kept). rewrite <- app_assoc. auto.
    + eauto.
Qed.

Lemma filter_prs_loop_all_kept l acc :
  Forall (fun pr => keeps pr = Ret true) l ->
  filter_prs_loop l acc = Ret (acc ++ l)%list.
Proof.
  intros H. revert acc. induction H as [|pr l Hpr _ IH]; simpl; intros acc.
  - by rewrite app_nil_r.
  - rewrite Hpr. simpl. rewrite IH, <- app_assoc. reflexivity.
Qed.

(** The outer loop keeps exactly what [retained] describes. *)
Lemma filter_repos_loop_retained data fd names out :
  filter_repos_loop data fd names = Ret out ->
  out = ((fd ++ omap retained data)%list,
         (names ++ map nameWithOwner (omap retained data))%list).
Proof.
  revert fd names. induction data as [|repo data IH]; simpl; intros fd names H.
  - injection H as <-. by rewrite !app_nil_r.
  - bind_inv H. apply filter_prs_loop_filter in E. simpl in E. subst a.
    revert H. unfold Spec.retained, Spec.survivors.
    destruct (20 <=? Z.of_nat (length (List.filter _ _)));
      intros H; apply IH in H; subst out; simpl; [|reflexivity].
    by rewrite <- !app_assoc.
Qed.

Lemma filter_data_readable data :
  forallb (Spec.readable_repo fromisoformat) data = true ->
  exists out, filter_data data = Ret out.
Proof.
  unfold BuildDataset.filter_data. generalize (@nil Repository).
  generalize (@nil string).
  intros names fd. revert fd names.
  induction data as [|repo data IH]; simpl; intros fd names H; [eauto|].
  apply andb_true_iff in H as [Hr H].
  destruct (filter_prs_loop_readable _ [] Hr) as [out Hout].
  unfold BuildDataset.surviving. rewrite Hout. simpl.
  destruct (20 <=? Z.of_nat (length out)); by apply IH.
Qed.

Lemma filter_repos_loop_again data fd names fd' names' :
  filter_repos_loop data fd names = Ret (fd', names') ->
  exists fd2 names2,
    fd' = (fd ++ fd2)%list /\ names' = (names ++ names2)%list
    /\ forall a b,
         filter_repos_loop fd2 a b = Ret ((a ++ fd2)%list, (b ++ names2)%list).
Proof.
  revert fd names. induction data as [|repo data IH]; simpl; intros fd names H.
  - injection H as <- <-. exists [], []. rewrite !app_nil_r.
    repeat split. intros a b. simpl. by rewrite !app_nil_r.
  - bind_inv H. rename a into kept.
    destruct (20 <=? Z.of_nat (length kept)) eqn:Hlen; [|eauto].
    destruct (IH _ _ H) as (fd2 & names2 & -> & -> & Hagain).
    eexists (_ :: fd2), (_ :: names2). rewrite <- !app_assoc.
    repeat split. intros a b. simpl.
    apply filter_prs_loop_kept in E. destruct E as (k & -> & Hk).
    unfold BuildDataset.surviving, BuildDataset.prs_of. simpl.
    rewrite (filter_prs_loop_all_kept _ [] Hk). simpl. simpl in Hlen.
    rewrite Hlen, Hagain, <- !app_assoc. reflexivity.
Qed.

Lemma elem_of_survivors pr prs :
  pr ∈ List.filter survives prs <-> pr ∈ prs /\ survives pr = true.
Proof. rewrite !list_elem_of_In. apply filter_In. Qed.

(** C1: a record presented to the filter is kept if and only if it has
    a review or a comment, it has a resolution time (the merge time if
    present, else the close time if present), and that time is at least
    ten minutes after its creation; a record with neither time is
    dropped whatever its other fields. *)
Theorem filter_keeps_iff_survival (prs : list PullRequest) :
  forallb readable prs = true ->
  exists out,
    filter_prs_loop prs [] = Ret out
    /\ out = List.filter survives prs
    /\ (forall pr, pr ∈ prs -> keeps pr = Ret (survives pr))
    /\ (forall pr, pr ∈ out <-> pr ∈ prs /\ survives pr = true)
    /\ (forall pr, truthy (mergedAt pr) = false ->
                   truthy (closedAt pr) = false -> pr ∉ out).
Proof.
  intros Hread.
  destruct (filter_prs_loop_readable prs [] Hread) as [out Hout].
  pose proof (filter_prs_loop_filter _ _ _ Hout) as Heq. simpl in Heq.
  exists out. do 2 (split; [assumption|]). split; [|split].
  - intros pr Hin.
    assert (Hr : readable pr = true).
    { rewrite forallb_forall in Hread. apply Hread.
      by apply list_elem_of_In. }
    destruct (readable_keeps pr Hr) as [b Hb].
    by rewrite Hb, (keeps_survives _ _ Hb).
  - intros pr. subst out. apply elem_of_survivors.
  - intros pr Hm Hc Hin. subst out.
    apply elem_of_survivors in Hin as [_ Hs].
    unfold Spec.survives, Spec.resolution_time in Hs.
    rewrite Hm, Hc, andb_false_r in Hs. discriminate.
Qed.

Lemma elem_of_retained e (data : list Repository) :
  e ∈ omap retained data <->
  exists r, r ∈ data /\ 20 <= Z.of_nat (length (survivors r))
            /\ e = {| nameWithOwner := nameWithOwner r;
                      stars := stars r;
                      repo_url := repo_url r;
                      pullRequests := Some (survivors r) |}.
Proof.
  rewrite list_elem_of_omap. unfold Spec.retained.
  split; intros (r & Hr & H); exists r; (split; [exact Hr|]).
  - destruct (Z.leb_spec 20 (Z.of_nat (length (survivors r))));
      [|discriminate].
    injection H as <-. auto.
  - destruct H as [Hlen ->].
    destruct (Z.leb_spec 20 (Z.of_nat (length (survivors r)))); [done|lia].
Qed.

(** C4: every repository in the filter's output holds at least 20
    surviving records, and a repository with fewer than 20 surviving
    records appears neither in the filtered output nor in the list of
    surviving names. *)
Theorem filtered_repos_have_20 (data : list Repository) :
  forallb readable_repo data = true ->
  exists filtered names,
    filter_data data = Ret (filtered, names)
    /\ names = map nameWithOwner filtered
    /\ (forall e, e ∈ filtered ->
          exists r prs,
            r ∈ data /\ nameWithOwner e = nameWithOwner r
            /\ prs = survivors r /\ pullRequests e = Some prs
            /\ 20 <= Z.of_nat (length prs))
    /\ (forall n,
          (forall r, r ∈ data -> nameWithOwner r = n ->
                     Z.of_nat (length (survivors r)) < 20) ->
          (n ∉ names) /\ forall e, e ∈ filtered -> nameWithOwner e <> n).
Proof.
  intros Hread. destruct (filter_data_readable data Hread) as [out Hout].
  pose proof (filter_repos_loop_retained _ _ _ _ Hout) as ->.
  simpl in Hout. simpl. do 2 eexists.
  split; [exact Hout|]. split; [reflexivity|].
  assert (Hfew : forall n,
    (forall r, r ∈ data -> nameWithOwner r = n ->
               Z.of_nat (length (survivors r)) < 20) ->
    forall e, e ∈ omap retained data -> nameWithOwner e <> n).
  { intros n Hn e He Hname.
    apply elem_of_retained in He as (r & Hr & Hlen & ->). simpl in Hname.
    specialize (Hn r Hr Hname). lia. }
  split.
  - intros e He. apply elem_of_retained in He as (r & Hr & Hlen & ->).
    exists r, (survivors r). simpl. auto.
  - intros n Hn. split; [|by apply Hfew].
    rewrite list_elem_of_fmap. intros (e & -> & He). by eapply Hfew.
Qed.

(** C8: filtering the filter's own output changes nothing: the same
    repositories with the same records, and the same list of names. *)
Theorem filter_idempotent (data filtered : list Repository)
    (names : list string) :
  filter_data data = Ret (filtered, names) ->
  filter_data filtered = Ret (filtered, names)
  /\ forall input output fs,
       fs !! input = Some (FDataset data) ->
       filtered <> [] ->
       output <> "repos_names.json" ->
       let fs1 := fst (filter_pull_requests input output fs) in
       filter_pull_requests output output fs1 = (fs1, Ret tt).
Proof.
  intros H.
  assert (Hagain : filter_data filtered = Ret (filtered, names)).
  { destruct (filter_repos_loop_again _ _ _ _ _ H)
      as (fd2 & names2 & -> & -> & Hagain).
    apply (Hagain [] []). }
  split; [exact Hagain|].
  intros input output fs Hin Hne Hout fs1.
  assert (Hrun : fs1 = <["repos_names.json" := FNames names]>
                         (<[output := FDataset filtered]> fs)).
  { subst fs1. unfold BuildDataset.filter_pull_requests.
    rewrite Hin. simpl. rewrite H. by destruct filtered. }
  rewrite Hrun. unfold BuildDataset.filter_pull_requests.
  rewrite lookup_insert_ne, lookup_insert_eq by done. simpl.
  rewrite Hagain. destruct filtered as [|e filtered]; [done|]. f_equal.
  rewrite (insert_id (<[_:=_]> _) output);
    [|by rewrite lookup_insert_ne, lookup_insert_eq].
  apply insert_id, lookup_insert_eq.
Qed.


(** C10: when no repository of the input reaches 20 surviving records,
    the filter writes nothing: the file system is left exactly as it
    was. *)
Theorem filter_writes_nothing (input output : string)
    (fs : gmap string File) (f : File) (data : list Repository) :
  fs !! input = Some f ->
  BuildDataset.load_dataset f = Ret data ->
  (forall r, r ∈ data -> Z.of_nat (length (survivors r)) < 20) ->
  fst (filter_pull_requests input output fs) = fs.
Proof.
  intros Hin Hload Hfew. unfold BuildDataset.filter_pull_requests.
  rewrite Hin, Hload. simpl.
  destruct (filter_data data) as [[filtered names]|e] eqn:Hrun; [|done].
  apply filter_repos_loop_retained in Hrun. injection Hrun as -> _.
  simpl. destruct (omap retained data) as [|e l] eqn:Hout; [done|].
  assert (He : e ∈ omap retained data) by (rewrite Hout; left).
  apply elem_of_retained in He as (r & Hr & Hlen & _).
  specialize (Hfew r Hr). lia.
Qed.

End FilterProofs.

(** * Verification of the normalisation *)

Section NormalisationProofs.

Import GetRepos.

Lemma number_defined (x : jfield Z) :
  Spec.number_ok x = true -> is_Some (get_default x 0).
Proof. destruct x; simpl; [eauto|discriminate|eauto]. Qed.

Lemma count_defined (x : jfield Raw.Count) :
  Spec.count_ok x = true ->
  is_Some (get_default (Raw.totalCount (or_empty x)) 0).
Proof.
  destruct x as [| |c]; simpl; [eauto..|]. apply number_defined.
Qed.

Lemma count_missing (x : jfield Raw.Count) :
  Spec.missing x = true ->
  get_default (Raw.totalCount (or_empty x)) 0 = Some 0.
Proof. by destruct x. Qed.

Lemma normalize_loop_total raw acc :
  forallb Spec.conforms raw = true ->
  exists prs, normalize_loop raw acc = Ret (acc ++ prs)
              /\ length prs = length raw.
Proof.
  revert acc. induction raw as [|pr raw IH]; simpl; intros acc H.
  - exists []. by rewrite app_nil_r.
  - apply andb_true_iff in H as [Hpr H].
    assert (exists r, normalize pr = Ret r) as [r ->].
    { revert Hpr. unfold Spec.conforms, normalize.
      destruct (Raw.node pr); [eauto|discriminate|eauto]. }
    simpl. destruct (IH (acc ++ [r]) H) as (prs & -> & Hlen).
    exists (r :: prs). rewrite <- app_assoc. simpl. auto.
Qed.

(** Outside that shape nothing is promised: a number that arrives as
    [null], which the upstream's schema rules out, stays [null]. *)
Remark normalize_keeps_null :
  Spec.conforms Sample.null_additions = false
  /\ exists r, normalize Sample.null_additions = Ret r
               /\ additions r = None.
Proof. split; [reflexivity|]. eexists. split; reflexivity. Qed.

(** C6: normalisation never fails on a record of the upstream's shape,
    whichever of its nested objects are missing: every number of the
    result is there, a missing nested object counts as zero, and a
    missing or [null] body has size zero. The same holds of a whole
    list of such records. *)
Theorem normalize_total (pr : Raw.Edge) :
  Spec.conforms pr = true ->
  (exists r,
    normalize pr = Ret r
    /\ Forall is_Some (Spec.numeric_fields r)
    /\ forall n,
         n = match Raw.node pr with Val x => x | _ => Raw.empty_node end ->
         (Spec.missing (Raw.reviews n) = true -> reviewCount r = Some 0)
         /\ (Spec.missing (Raw.files n) = true -> numberOfFiles r = Some 0)
         /\ (Spec.missing (Raw.participants n) = true ->
             participantsCount r = Some 0)
         /\ (Spec.missing (Raw.comments n) = true ->
             commentsCount r = Some 0)
         /\ (Spec.missing (Raw.body n) = true ->
             descriptionSize r = Some 0))
  /\ forall raw,
       forallb Spec.conforms raw = true ->
       exists prs, normalize_loop raw [] = Ret prs
                   /\ length prs = length raw.
Proof.
  intros Hpr. split; [|intros raw; apply normalize_loop_total].
  revert Hpr. unfold Spec.conforms, normalize.
  destruct (Raw.node pr) as [| |n]; [|discriminate|].
  - intros _. eexists. split; [reflexivity|]. split.
    + repeat constructor; by eexists.
    + by intros n ->.
  - rewrite !andb_true_iff. intros [[[[[Ha Hd] Hr] Hf] Hp] Hc].
    eexists. split; [reflexivity|]. split.
    + unfold Spec.numeric_fields. cbn [reviewCount numberOfFiles additions
        deletions descriptionSize participantsCount commentsCount].
      repeat constructor;
        auto using number_defined, count_defined.
    + intros ? ->. cbn [reviewCount numberOfFiles descriptionSize
        participantsCount commentsCount].
      repeat split; try apply count_missing.
      by destruct (Raw.body n).
Qed.

End NormalisationProofs.

(** * Verification of the collector *)

Section CollectorProofs.

Import GetRepos.

Variable World : Type.
Variable search_post : option string -> World -> Post Raw.Repo * World.
Variable prs_post : Query -> World -> Post Raw.Edge * World.
Variable time_time : World -> Z * World.
Variable time_sleep : Z -> World -> World.

Local Abbreviation pages_loop :=
  (GetRepos.pages_loop World prs_post time_time time_sleep).
Local Abbreviation collect_repo :=
  (GetRepos.collect_repo World prs_post time_time time_sleep).
Local Abbreviation checkpoint := (GetRepos.checkpoint World).
Local Abbreviation repos_loop :=
  (GetRepos.repos_loop World prs_post time_time time_sleep).
Local Abbreviation search_loop :=
  (GetRepos.search_loop World search_post time_sleep).
Local Abbreviation get_top_200_repos :=
  (GetRepos.get_top_200_repos World search_post time_sleep).
Local Abbreviation get_pull_requests_for_repos :=
  (GetRepos.get_pull_requests_for_repos World prs_post time_time
     time_sleep).

Local Arguments slice_to : simpl never.
Local Arguments slice_from : simpl never.

Implicit Types (st : State World) (tr : list Event).
Implicit Types (repo_pr_map m : gmap string (list Raw.Edge)).

(** What one run of the page loop guarantees. *)
Record pages_result (repo_timeout start_time : Z) (key : string)
    (m m' : gmap string (list Raw.Edge)) (tr : list Event) : Prop := {
  pr_budget : Spec.within_budget repo_timeout start_time tr = true;
  pr_final : Spec.failure_is_final tr = true;
  pr_written : Spec.written tr = [];
  pr_other : forall k, k <> key -> m' !! k = m !! k;
}.

Lemma pages_loop_result fuel max_prs repo_timeout key owner name
    start_time cursor has_next m st m' st' :
  pages_loop fuel max_prs repo_timeout key owner name start_time cursor
    has_next m st = Done (m', st') ->
  exists tr, log st' = (log st ++ tr)%list
             /\ pages_result repo_timeout start_time key m m' tr.
Proof.
  revert cursor has_next m st.
  induction fuel as [|fuel IH]; intros cursor has_next m st; simpl.
  - destruct (_ && _); [discriminate|]. intros [= <- <-].
    exists []. rewrite app_nil_r. by split.
  - destruct (_ && _).
    2:{ intros [= <- <-]. exists []. rewrite app_nil_r. by split. }
    unfold now, post_prs.
    destruct (time_time (world st)) as [t w] eqn:Ht.
    destruct (Z.ltb_spec repo_timeout (t - start_time)).
    { intros [= <- <-]. exists [EvTime t]. by split. }
    simpl. destruct (prs_post _ w) as [r w'] eqn:Hpost.
    set (q := {| q_owner := owner |}) in *.
    assert (Hfail : failed r = true ->
      exists tr, (log st ++ [EvTime t]) ++ [EvPost q r]
                 = (log st ++ tr)%list
        /\ pages_result repo_timeout start_time key m m tr).
    { intros Hf. exists [EvTime t; EvPost q r].
      rewrite <- app_assoc. split; [done|]. split; simpl; try done.
      - rewrite andb_true_r. by apply Z.leb_le.
      - by rewrite Hf. }
    destruct r as [| |code [|edges hasNext endCursor]];
      try (intros [= <- <-]; by apply Hfail).
    + destruct (code =? 200) eqn:Hcode; simpl;
        intros [= <- <-]; apply Hfail; simpl; by rewrite Hcode.
    + destruct (code =? 200) eqn:Hcode; simpl.
      2:{ intros [= <- <-]; apply Hfail; simpl; by rewrite Hcode. }
      intros Hrun. apply IH in Hrun as (tr & Hlog & [Hb Hf Hw Ho]).
      exists (EvTime t :: EvPost q (Response code (Page edges hasNext endCursor))
                :: EvSleep 1 :: tr).
      split.
      { rewrite Hlog. simpl. by rewrite <- !app_assoc. }
      split; simpl.
      * rewrite Hb, andb_true_r. by apply Z.leb_le.
      * by rewrite Hcode.
      * done.
      * intros k Hk. rewrite (Ho k Hk). by apply lookup_insert_ne.
Qed.


Lemma collect_repo_result fuel max_prs repo_timeout repo m st m' st' :
  collect_repo fuel max_prs repo_timeout repo m st = Done (m', st') ->
  exists start_time pages l,
    log st' = log st ++ EvTime start_time :: pages
    /\ Spec.within_budget repo_timeout start_time pages = true
    /\ Spec.failure_is_final pages = true
    /\ Spec.written pages = []
    /\ m' !! Raw.nameWithOwner repo = Some (slice_to max_prs l)
    /\ forall k, k <> Raw.nameWithOwner repo -> m' !! k = m !! k.
Proof.
  unfold GetRepos.collect_repo.
  destruct (owner_name _) as [[owner name]|]; [|discriminate].
  unfold now. destruct (time_time (world st)) as [t w].
  destruct (pages_loop _ _ _ _ _ _ _ _ _ _ _) as [[m2 st2]| |] eqn:Hrun;
    [|discriminate..].
  intros [= <- <-].
  apply pages_loop_result in Hrun as (tr & Hlog & [Hb Hf Hw Ho]).
  exists t, tr, (entry m2 (Raw.nameWithOwner repo)).
  split; [rewrite Hlog; simpl; by rewrite <- app_assoc|].
  do 3 (split; [assumption|]). split; [apply lookup_insert_eq|].
  intros k Hk. rewrite lookup_insert_ne by done.
  rewrite (Ho k Hk). by apply lookup_insert_ne.
Qed.


Lemma normalize_loop_result raw acc out :
  normalize_loop raw acc = Ret out ->
  exists prs, out = acc ++ prs
              /\ Forall2 (fun edge pr => normalize edge = Ret pr) raw prs.
Proof.
  revert acc. induction raw as [|edge raw IH]; simpl; intros acc H.
  - injection H as <-. exists []. by rewrite app_nil_r.
  - destruct (normalize edge) as [pr|] eqn:Hpr; simpl in H; [|discriminate].
    apply IH in H as (prs & -> & Hall).
    exists (pr :: prs). rewrite <- app_assoc. auto.
Qed.

(** A saved file holds, in order, the repositories for which the map
    has records, each with its normalised records. *)
Lemma build_data_result repos m acc data :
  build_data repos m acc = Ret data ->
  exists new,
    data = acc ++ new
    /\ Forall2 (Spec.saved_as m) (List.filter (Spec.has_records m) repos)
         new.
Proof.
  revert acc. induction repos as [|repo repos IH]; simpl; intros acc H.
  - injection H as <-. exists []. by rewrite app_nil_r.
  - unfold Spec.has_records.
    destruct (m !! Raw.nameWithOwner repo) as [[|edge raw]|] eqn:Hm;
      simpl in H; try by apply IH.
    change (Py.bind (normalize edge) _)
      with (normalize_loop (edge :: raw) []) in H.
    destruct (normalize_loop _ _) as [prs|] eqn:Hprs; simpl in H;
      [|discriminate].
    apply IH in H as (new & -> & Hall).
    apply normalize_loop_result in Hprs as (prs' & -> & Hprs).
    eexists (_ :: new). rewrite <- app_assoc. split; [reflexivity|].
    constructor; [|exact Hall].
    repeat split. exists prs'. by rewrite Hm.
Qed.

Lemma checkpoint_result repos index m st st' :
  checkpoint repos index m st = Ret st' ->
  exists saved,
    log st' = log st ++ saved
    /\ Spec.written saved
       = (if index mod 10 =? 0 then [partial_filename index] else [])
    /\ (saved = [] \/ exists f c, saved = [EvWrite f c])
    /\ (index mod 10 = 0 ->
        exists data,
          saved = [EvWrite (partial_filename index) (FDataset data)]
          /\ Forall2 (Spec.saved_as m)
               (List.filter (Spec.has_records m) (slice_to index repos))
               data).
Proof.
  unfold GetRepos.checkpoint, save_repos_and_prs_to_json.
  destruct (Z.eqb_spec (index mod 10) 0) as [Hmod|Hmod].
  - destruct (build_data _ _ _) as [data|] eqn:Hdata; simpl;
      [|discriminate].
    intros [= <-]. eexists. split; [reflexivity|].
    split; [reflexivity|]. split; [right; eauto|]. intros _.
    apply build_data_result in Hdata as (new & -> & Hall). eauto.
  - intros [= <-]. exists []. rewrite app_nil_r.
    split; [done|]. split; [done|]. split; [by left|]. by intros.
Qed.

Lemma checkpoint_indices_cons index n :
  Spec.checkpoint_indices index (S n) =
  (if index mod 10 =? 0 then [index] else [])
    ++ Spec.checkpoint_indices (index + 1) n.
Proof.
  unfold Spec.checkpoint_indices.
  rewrite seqZ_cons by lia. simpl.
  replace (Z.succ index) with (index + 1) by lia.
  replace (Z.pred (Z.of_nat (S n))) with (Z.of_nat n) by lia.
  by destruct (index mod 10 =? 0).
Qed.

Lemma written_app tr1 tr2 :
  Spec.written (tr1 ++ tr2) = Spec.written tr1 ++ Spec.written tr2.
Proof. apply omap_app. Qed.

Lemma length_slice_to {A} (n : Z) (l : list A) :
  0 <= n -> Z.of_nat (length (slice_to n l)) <= n.
Proof.
  intros Hn. unfold slice_to.
  destruct (Z.leb_spec 0 n); [|lia]. rewrite length_take. lia.
Qed.

(** What a completed run of the repository loop guarantees. *)
Lemma repos_loop_result fuel max_prs repo_timeout repos index todo
    m st m' st' :
  repos_loop fuel max_prs repo_timeout repos index todo m st
    = Done (m', st') ->
  exists tr,
    log st' = log st ++ tr
    /\ Spec.segments
         (fun start_time pages =>
            Spec.within_budget repo_timeout start_time pages = true
            /\ Spec.failure_is_final pages = true) todo tr
    /\ Spec.written tr
       = partial_filename <$> Spec.checkpoint_indices index (length todo)
    /\ (0 <= max_prs ->
        map_Forall (fun _ v => Z.of_nat (length v) <= max_prs) m ->
        map_Forall (fun _ v => Z.of_nat (length v) <= max_prs) m').
Proof.
  revert index m st.
  induction todo as [|repo rest IH]; intros index m st; simpl.
  - intros [= <- <-]. exists []. rewrite app_nil_r.
    repeat split; [constructor|done].
  - destruct (collect_repo _ _ _ _ _ _) as [[m1 st1]| |] eqn:Hrepo;
      [|discriminate..].
    destruct (checkpoint _ _ _ _) as [st2|] eqn:Hsave; [|discriminate].
    intros Hrest. apply IH in Hrest as (tr & Hlog & Hseg & Hw & Hcap).
    apply collect_repo_result in Hrepo
      as (t & pages & l & Hlog1 & Hb & Hf & Hw1 & Hkey & Hother).
    apply checkpoint_result in Hsave
      as (saved & Hlog2 & Hsaved & Hshape & _).
    exists (EvTime t :: pages ++ saved ++ tr). split; [|split; [|split]].
    + rewrite Hlog, Hlog2, Hlog1. by rewrite <- !app_assoc.
    + by constructor.
    + change (EvTime t :: pages ++ saved ++ tr)
        with ([EvTime t] ++ pages ++ saved ++ tr).
      rewrite !written_app, Hw1, Hw, checkpoint_indices_cons, fmap_app.
      simpl. rewrite Hsaved. by destruct (index mod 10 =? 0).
    + intros Hmax Hm. apply Hcap; [done|].
      intros k v. destruct (decide (k = Raw.nameWithOwner repo)) as [->|Hk].
      * rewrite Hkey. intros [= <-]. by apply length_slice_to.
      * rewrite (Hother k Hk). apply Hm.
Qed.

Lemma search_loop_result fuel repos cursor has_next st found st' :
  search_loop fuel repos cursor has_next st = Done (found, st') ->
  (length found <= 200)%nat.
Proof.
  revert repos cursor has_next st.
  induction fuel as [|fuel IH]; intros repos cursor has_next st; simpl.
  - destruct (_ && _); [discriminate|]. intros [= <- _].
    pose proof (length_slice_to 200 repos). lia.
  - destruct (_ && _).
    2:{ intros [= <- _]. pose proof (length_slice_to 200 repos). lia. }
    unfold post_search. destruct (search_post _ _) as [r w].
    destruct r as [| |code [|edges hasNext endCursor]]; try discriminate;
      destruct (code =? 200); simpl; try discriminate.
    apply IH.
Qed.

(** C5: discovery returns at most 200 repositories, and in the map
    that collection returns no repository has more than 100 records. *)
Theorem collection_respects_caps (fuel : nat) st (repos : list Raw.Repo) st1
    (start_index : Z) (fuel' : nat) (repos' : list Raw.Repo)
    (max_repos : Z) st2 m st3 :
  get_top_200_repos fuel st = Done (repos, st1) ->
  get_pull_requests_for_repos start_index fuel' repos' max_repos 100 90
    st2 = Done (m, st3) ->
  (length repos <= 200)%nat
  /\ forall name prs, m !! name = Some prs -> (length prs <= 100)%nat.
Proof.
  intros Hsearch Hcollect. split.
  - by eapply search_loop_result.
  - apply repos_loop_result in Hcollect as (_ & _ & _ & _ & Hcap).
    intros name prs Hname.
    assert (Z.of_nat (length prs) <= 100); [|lia].
    eapply (Hcap ltac:(lia)); [|exact Hname].
    intros k v. by rewrite lookup_empty.
Qed.











End CollectorProofs.

(** * The theorems at work on the scripted upstream and the sample files *)

Section Instances.

Import GetRepos.

Lemma filter_keeps_iff_survival_witness :
  let prs := [Sample.merged_pr 30; Sample.merged_pr 5; Sample.open_pr] in
  forallb (Spec.readable Sample.fromisoformat) prs = true
  /\ BuildDataset.filter_prs_loop Sample.fromisoformat prs []
     = Ret [Sample.merged_pr 30].
Proof.
  intros prs.
  assert (H : forallb (Spec.readable Sample.fromisoformat) prs = true)
    by (vm_compute; reflexivity).
  split; [exact H|].
  destruct (filter_keeps_iff_survival Sample.fromisoformat prs H)
    as (out & -> & -> & _).
  vm_compute. reflexivity.
Defined.

Lemma filtered_repos_have_20_witness :
  forallb (Spec.readable_repo Sample.fromisoformat) Sample.dataset = true
  /\ BuildDataset.filter_data Sample.fromisoformat Sample.dataset
     = Ret (Sample.filtered_dataset, ["a/b"]).
Proof.
  assert (H : forallb (Spec.readable_repo Sample.fromisoformat)
                Sample.dataset = true) by (vm_compute; reflexivity).
  split; [exact H|].
  destruct (filtered_repos_have_20 Sample.fromisoformat Sample.dataset H)
    as (filtered & names & Hrun & _).
  rewrite Hrun. revert Hrun. vm_compute. intros [= <- <-]. reflexivity.
Defined.

Lemma filter_idempotent_witness :
  BuildDataset.filter_data Sample.fromisoformat Sample.dataset
  = Ret (Sample.filtered_dataset, ["a/b"])
  /\ BuildDataset.filter_data Sample.fromisoformat Sample.filtered_dataset
     = Ret (Sample.filtered_dataset, ["a/b"]).
Proof.
  assert (H : BuildDataset.filter_data Sample.fromisoformat Sample.dataset
              = Ret (Sample.filtered_dataset, ["a/b"]))
    by (vm_compute; reflexivity).
  split; [exact H|].
  exact (proj1 (filter_idempotent Sample.fromisoformat _ _ _ H)).
Defined.


Lemma filter_writes_nothing_witness :
  let fs := Sample.disk Sample.small_dataset in
  fst (BuildDataset.filter_pull_requests Sample.fromisoformat
         "repos_and_prs.json" "filtered_prs.json" fs) = fs.
Proof.
  intros fs.
  apply (filter_writes_nothing Sample.fromisoformat
           "repos_and_prs.json" "filtered_prs.json" fs
           (FDataset Sample.small_dataset) Sample.small_dataset).
  - vm_compute. reflexivity.
  - reflexivity.
  - intros r Hr. apply list_elem_of_singleton in Hr. subst r.
    vm_compute. reflexivity.
Defined.

Lemma normalize_total_witness :
  Spec.conforms (Sample.raw_pr 1) = true
  /\ exists r, normalize (Sample.raw_pr 1) = Ret r
               /\ numberOfFiles r = Some 0 /\ commentsCount r = Some 0
               /\ descriptionSize r = Some 0.
Proof.
  assert (H : Spec.conforms (Sample.raw_pr 1) = true) by reflexivity.
  split; [exact H|].
  destruct (normalize_total (Sample.raw_pr 1) H) as [(r & Hr & _ & Hz) _].
  exists r. split; [exact Hr|].
  destruct (Hz _ eq_refl) as (_ & Hf & _ & Hc & Hb).
  split; [by apply Hf|]. split; [by apply Hc|by apply Hb].
Defined.

Lemma collection_respects_caps_witness :
  Sample.discovery
  = Done (Sample.value [] Sample.discovery, Sample.final Sample.discovery)
  /\ Sample.collection
     = Done (Sample.value ∅ Sample.collection,
             Sample.final Sample.collection)
  /\ (length (Sample.value [] Sample.discovery) <= 200)%nat
  /\ forall name prs,
       Sample.value ∅ Sample.collection !! name = Some prs ->
       (length prs <= 100)%nat.
Proof.
  assert (H1 : Sample.discovery
               = Done (Sample.value [] Sample.discovery,
                       Sample.final Sample.discovery))
    by (vm_compute; reflexivity).
  assert (H2 : Sample.collection
               = Done (Sample.value ∅ Sample.collection,
                       Sample.final Sample.collection))
    by (vm_compute; reflexivity).
  split; [exact H1|]. split; [exact H2|].
  exact (collection_respects_caps Sample.World Sample.search_post
           Sample.prs_post Sample.time_time Sample.time_sleep
           5 Sample.start _ _ 1 10 Sample.ten_repos 200 Sample.start
           _ _ H1 H2).
Defined.



(** The scripted upstream has a steady clock. *)
Lemma sample_clock_is_steady :
  Spec.steady_clock Sample.prs_post Sample.time_time Sample.time_sleep
    (fun w => w).
Proof.
  repeat split; intros; simpl; try lia.
  - unfold Sample.prs_post.
    repeat destruct (String.eqb _ _); simpl; lia.
  - unfold Sample.time_sleep. lia.
Qed.



End Instances.

(** * Further properties of the collector *)

Section Names.

Import GetRepos.

Lemma split_slash_cons s :
  exists p ps, split_slash s = p :: ps /\ Facts.has_slash p = false.
Proof.
  induction s as [|c s (p & ps & IH & Hp)]; simpl.
  - by exists "", [].
  - destruct (Ascii.eqb c "/") eqn:Hc.
    + by exists "", (split_slash s).
    + rewrite IH. exists (String c p), ps. simpl. by rewrite Hc.
Qed.

Lemma split_slash_whole s :
  Facts.has_slash s = false -> split_slash s = [s].
Proof.
  induction s as [|c s IH]; simpl; [done|].
  destruct (Ascii.eqb c "/"); [done|]. simpl. intros H. by rewrite IH.
Qed.

Lemma split_slash_app o n :
  Facts.has_slash o = false ->
  split_slash (o ++ "/" ++ n)%string = o :: split_slash n.
Proof.
  induction o as [|c o IH]; simpl; [done|].
  destruct (Ascii.eqb c "/"); [done|]. simpl. intros H. by rewrite IH.
Qed.

Lemma split_slash_one s n :
  split_slash s = [n] -> s = n /\ Facts.has_slash n = false.
Proof.
  revert n. induction s as [|c s IH]; intros n; simpl.
  - by intros [= <-].
  - destruct (Ascii.eqb c "/") eqn:Hc.
    + destruct (split_slash_cons s) as (p & ps & -> & _). discriminate.
    + destruct (split_slash_cons s) as (p & ps & Hs & _).
      rewrite Hs in *. intros [= <- ->].
      destruct (IH p eq_refl) as [-> Hp]. simpl. by rewrite Hc.
Qed.

Lemma split_slash_two s o n :
  split_slash s = [o; n] ->
  s = (o ++ "/" ++ n)%string /\ Facts.has_slash o = false
  /\ Facts.has_slash n = false.
Proof.
  revert o. induction s as [|c s IH]; intros o; simpl; [discriminate|].
  destruct (Ascii.eqb_spec c "/") as [->|Hc].
  - intros [= <- Hs]. apply split_slash_one in Hs as [-> Hn]. done.
  - destruct (split_slash_cons s) as (p & ps & Hs & _).
    rewrite Hs in *. intros [= <- ->].
    destruct (IH p eq_refl) as (-> & Hp & Hn).
    simpl. repeat split; [|done].
    apply Ascii.eqb_neq in Hc. by rewrite Hc.
Qed.

(** X1: the name of a repository splits into owner and name exactly when
    it is an owner without a slash, one slash, and a name without a
    slash; any other string raises [ValueError]. *)
Theorem owner_name_iff (s owner name : string) :
  (owner_name s = Ret (owner, name) <->
   s = (owner ++ "/" ++ name)%string /\ Facts.has_slash owner = false
   /\ Facts.has_slash name = false)
  /\ (forall e, owner_name s = Raise e -> e = ValueError).
Proof.
  unfold owner_name. split; [split|].
  - destruct (split_slash s) as [|o [|n [|? ?]]] eqn:Hs; try discriminate.
    intros [= <- <-]. by apply split_slash_two.
  - intros (-> & Ho & Hn).
    by rewrite (split_slash_app _ _ Ho), (split_slash_whole _ Hn).
  - destruct (split_slash s) as [|o [|n [|? ?]]]; congruence.
Qed.

End Names.

Section Filenames.

Import GetRepos.

Lemma string_length_app (s t : string) :
  String.length (s ++ t)%string = (String.length s + String.length t)%nat.
Proof. induction s as [|c s IH]; simpl; [done|]. by rewrite IH. Qed.

Lemma string_app_inv_tail (s1 s2 t : string) :
  (s1 ++ t)%string = (s2 ++ t)%string -> s1 = s2.
Proof.
  revert s2. induction s1 as [|c s1 IH]; intros [|d s2] H; simpl in H.
  - done.
  - apply (f_equal String.length) in H.
    rewrite !string_length_app in H. simpl in H. lia.
  - apply (f_equal String.length) in H.
    rewrite !string_length_app in H. simpl in H. lia.
  - injection H as -> H. f_equal. by apply IH.
Qed.

(** X2: checkpoints taken at different indices go to different files:
    none overwrites another. *)
Theorem partial_filename_inj (i j : Z) :
  partial_filename i = partial_filename j -> i = j.
Proof.
  unfold partial_filename. intros H.
  apply (inj (String.append _)) in H.
  apply string_app_inv_tail in H. by apply (inj pretty).
Qed.

End Filenames.

Section Pages.

Import GetRepos.

Variable World : Type.
Variable search_post : option string -> World -> Post Raw.Repo * World.
Variable prs_post : Query -> World -> Post Raw.Edge * World.
Variable time_time : World -> Z * World.
Variable time_sleep : Z -> World -> World.

Local Abbreviation pages_loop :=
  (GetRepos.pages_loop World prs_post time_time time_sleep).
Local Abbreviation collect_repo :=
  (GetRepos.collect_repo World prs_post time_time time_sleep).
Local Abbreviation repos_loop :=
  (GetRepos.repos_loop World prs_post time_time time_sleep).
Local Abbreviation search_loop :=
  (GetRepos.search_loop World search_post time_sleep).
Local Abbreviation get_top_200_repos :=
  (GetRepos.get_top_200_repos World search_post time_sleep).
Local Abbreviation get_pull_requests_for_repos :=
  (GetRepos.get_pull_requests_for_repos World prs_post time_time
     time_sleep).
Local Abbreviation save_repos_and_prs_to_json :=
  (GetRepos.save_repos_and_prs_to_json World).
Local Abbreviation main :=
  (GetRepos.main World search_post prs_post time_time time_sleep).

Local Arguments slice_to : simpl never.
Local Arguments slice_from : simpl never.

Implicit Types (st : State World) (tr : list Event).
Implicit Types (m : gmap string (list Raw.Edge)).

Lemma entry_insert m key l : entry (<[key := l]> m) key = l.
Proof. unfold entry. by rewrite lookup_insert_eq. Qed.

(** What the events of one run of the page loop say about it. *)
Lemma pages_loop_pages fuel max_prs repo_timeout key owner name
    start_time cursor has_next m st m' st' :
  pages_loop fuel max_prs repo_timeout key owner name start_time cursor
    has_next m st = Done (m', st') ->
  exists tr,
    log st' = log st ++ tr
    /\ entry m' key = entry m key ++ Facts.pages_of tr
    /\ Facts.paged max_prs (Z.of_nat (length (entry m key))) cursor
         has_next tr = true
    /\ Facts.paused tr = true.
Proof.
  revert cursor has_next m st.
  induction fuel as [|fuel IH]; intros cursor has_next m st; simpl.
  - destruct (_ && _); [discriminate|]. intros [= <- <-].
    exists []. by rewrite !app_nil_r.
  - destruct (has_next && _) eqn:Hcond.
    2:{ intros [= <- <-]. exists []. by rewrite !app_nil_r. }
    apply andb_true_iff in Hcond as [-> Hlen].
    unfold now, post_prs.
    destruct (time_time (world st)) as [t w].
    destruct (repo_timeout <? t - start_time).
    { intros [= <- <-]. exists [EvTime t]. by rewrite app_nil_r. }
    simpl. destruct (prs_post _ w) as [r w'].
    set (q := {| q_owner := owner |}) in *.
    assert (Hstop : Facts.delivered r = [] -> failed r = true ->
      exists tr, (log st ++ [EvTime t]) ++ [EvPost q r] = log st ++ tr
        /\ entry m key = entry m key ++ Facts.pages_of tr
        /\ Facts.paged max_prs (Z.of_nat (length (entry m key))) cursor
             true tr = true
        /\ Facts.paused tr = true).
    { intros Hnone Hfail. exists [EvTime t; EvPost q r].
      rewrite <- app_assoc. split; [done|]. simpl.
      rewrite Hnone, Hlen, Hfail, bool_decide_eq_true_2 by done.
      rewrite !app_nil_r. repeat split.
      destruct r as [| |code [|? ? ?]]; try done. by destruct (code =? 200). }
    destruct r as [| |code [|edges hasNext endCursor]];
      try (intros [= <- <-]; by apply Hstop).
    + destruct (code =? 200) eqn:Hcode; simpl;
        intros [= <- <-]; apply Hstop; simpl; by rewrite ?Hcode.
    + destruct (code =? 200) eqn:Hcode; simpl.
      2:{ intros [= <- <-]; apply Hstop; simpl; by rewrite Hcode. }
      intros Hrun. apply IH in Hrun as (tr & Hlog & Hentry & Hpaged & Hp).
      rewrite entry_insert in Hentry, Hpaged.
      exists (EvTime t
                :: EvPost q (Response code (Page edges hasNext endCursor))
                :: EvSleep 1 :: tr).
      split; [rewrite Hlog; simpl; by rewrite <- !app_assoc|].
      simpl. rewrite Hcode, Hlen, bool_decide_eq_true_2 by done. simpl.
      rewrite length_app, Nat2Z.inj_add in Hpaged.
      rewrite Hentry, Hpaged, Hp, <- app_assoc. done.
Qed.

Lemma collect_repo_pages fuel max_prs repo_timeout repo m st m' st' :
  collect_repo fuel max_prs repo_timeout repo m st = Done (m', st') ->
  exists start_time pages,
    log st' = log st ++ EvTime start_time :: pages
    /\ m' !! Raw.nameWithOwner repo
       = Some (slice_to max_prs (Facts.pages_of pages))
    /\ Facts.paged max_prs 0 None true pages = true
    /\ Facts.paused pages = true.
Proof.
  unfold GetRepos.collect_repo.
  destruct (owner_name _) as [[owner name]|]; [|discriminate].
  unfold now. destruct (time_time (world st)) as [t w].
  destruct (pages_loop _ _ _ _ _ _ _ _ _ _ _) as [[m2 st2]| |] eqn:Hrun;
    [|discriminate..].
  intros [= <- <-].
  apply pages_loop_pages in Hrun as (tr & Hlog & Hentry & Hpaged & Hp).
  rewrite entry_insert in Hentry, Hpaged. simpl in Hentry, Hpaged.
  exists t, tr. split; [rewrite Hlog; simpl; by rewrite <- app_assoc|].
  rewrite lookup_insert_eq, Hentry. done.
Qed.

(** X3: the records the map holds for a repository are the pages that
    were delivered for it, joined in the order they came and cut to
    [max_prs_per_repo]; nothing is reordered, repeated or made up. *)
Theorem collected_records_are_the_pages (fuel : nat)
    (max_prs repo_timeout : Z) (repo : Raw.Repo) m st m' st' :
  collect_repo fuel max_prs repo_timeout repo m st = Done (m', st') ->
  exists start_time pages,
    log st' = log st ++ EvTime start_time :: pages
    /\ m' !! Raw.nameWithOwner repo
       = Some (slice_to max_prs (Facts.pages_of pages)).
Proof.
  intros H. apply collect_repo_pages in H as (t & pages & ? & ? & _).
  eauto.
Qed.

(** X4: pagination is followed faithfully: the first request of a
    repository asks for the first page, every later one for the page
    after the cursor the previous page ended with, and a request is made
    only while the previous page announced a next one and fewer than
    [max_prs_per_repo] records are held. *)
Theorem pagination_is_followed (fuel : nat)
    (max_prs repo_timeout : Z) (repo : Raw.Repo) m st m' st' :
  collect_repo fuel max_prs repo_timeout repo m st = Done (m', st') ->
  exists start_time pages,
    log st' = log st ++ EvTime start_time :: pages
    /\ Facts.paged max_prs 0 None true pages = true.
Proof.
  intros H. apply collect_repo_pages in H as (t & pages & ? & _ & ? & _).
  eauto.
Qed.

(** What the events of one run of the search loop say about it. *)
Lemma search_loop_pages fuel repos cursor has_next st found st' :
  search_loop fuel repos cursor has_next st = Done (found, st') ->
  exists tr,
    log st' = log st ++ tr
    /\ found = slice_to 200 (repos ++ Facts.search_pages tr)
    /\ Facts.searches_succeeded tr = true
    /\ Facts.search_paged (Z.of_nat (length repos)) cursor has_next tr
       = true
    /\ Facts.paused tr = true.
Proof.
  revert repos cursor has_next st.
  induction fuel as [|fuel IH]; intros repos cursor has_next st; simpl.
  - destruct (_ && _); [discriminate|]. intros [= <- <-].
    exists []. by rewrite !app_nil_r.
  - destruct (has_next && _) eqn:Hcond.
    2:{ intros [= <- <-]. exists []. by rewrite !app_nil_r. }
    apply andb_true_iff in Hcond as [-> Hlen].
    unfold post_search. destruct (search_post _ _) as [r w].
    destruct r as [| |code [|edges hasNext endCursor]]; try discriminate;
      destruct (code =? 200) eqn:Hcode; simpl; try discriminate.
    intros Hrun. apply IH in Hrun as (tr & Hlog & -> & Hok & Hpaged & Hp).
    exists (EvSearch (after_of cursor)
              (Response code (Page edges hasNext endCursor))
              :: EvSleep 1 :: tr).
    split; [rewrite Hlog; simpl; by rewrite <- !app_assoc|].
    simpl. rewrite Hcode, Hlen, bool_decide_eq_true_2 by done. simpl.
    rewrite length_app, Nat2Z.inj_add in Hpaged.
    by rewrite Hok, Hpaged, Hp, <- app_assoc.
Qed.

(** X5: discovery returns the repositories of the pages it received,
    joined in the order they came and cut to 200. *)
Theorem discovered_repos_are_the_pages (fuel : nat) st
    (repos : list Raw.Repo) st' :
  get_top_200_repos fuel st = Done (repos, st') ->
  exists tr,
    log st' = log st ++ tr
    /\ repos = slice_to 200 (Facts.search_pages tr).
Proof.
  intros H. apply search_loop_pages in H as (tr & ? & ? & _). eauto.
Qed.

(** X6: discovery is all or nothing: a list is returned only if every
    search request succeeded; after a request that fails (transport
    error, status other than 200, error list) the function raises, and
    what was found so far is lost. *)
Theorem discovery_is_all_or_nothing (fuel : nat) st :
  (forall repos st',
     get_top_200_repos fuel st = Done (repos, st') ->
     exists tr, log st' = log st ++ tr
                /\ Facts.searches_succeeded tr = true)
  /\ (forall found cursor st0,
        Z.of_nat (length found) < 200 ->
        failed (fst (search_post (after_of cursor) (world st0))) = true ->
        exists e, search_loop (S fuel) found cursor true st0 = Failed e).
Proof.
  split.
  - intros repos st' H.
    apply search_loop_pages in H as (tr & ? & _ & ? & _). eauto.
  - intros found cursor st0 Hlen Hfail. simpl.
    apply Z.ltb_lt in Hlen. rewrite Hlen. unfold post_search.
    destruct (search_post _ _) as [r w]. simpl in Hfail. revert Hfail.
    destruct r as [| |code [|edges hasNext endCursor]]; simpl;
      try destruct (code =? 200); simpl; intros Hfail;
      try discriminate Hfail; eauto.
Qed.

(** X7: the search is paged faithfully too: the first request asks for
    the first page, every later one for the page after the cursor the
    previous page ended with, and a request is made only while a next
    page was announced and fewer than 200 repositories are held. *)
Theorem search_pagination_is_followed (fuel : nat) st
    (repos : list Raw.Repo) st' :
  get_top_200_repos fuel st = Done (repos, st') ->
  exists tr,
    log st' = log st ++ tr
    /\ Facts.search_paged 0 None true tr = true.
Proof.
  intros H. apply search_loop_pages in H as (tr & ? & _ & _ & ? & _).
  eauto.
Qed.

(** X8: the upstream is never asked twice in a row: every page that is
    delivered, of repositories or of pull requests, is followed at once
    by a pause of one second. *)
Theorem every_page_is_followed_by_a_pause (fuel : nat) st
    (repos : list Raw.Repo) st1 (fuel' : nat) (max_prs repo_timeout : Z)
    (repo : Raw.Repo) m st2 m' st3 :
  get_top_200_repos fuel st = Done (repos, st1) ->
  collect_repo fuel' max_prs repo_timeout repo m st2 = Done (m', st3) ->
  (exists tr, log st1 = log st ++ tr /\ Facts.paused tr = true)
  /\ (exists start_time pages,
        log st3 = log st2 ++ EvTime start_time :: pages
        /\ Facts.paused pages = true).
Proof.
  intros Hsearch Hrepo. split.
  - apply search_loop_pages in Hsearch as (tr & ? & _ & _ & _ & ?). eauto.
  - apply collect_repo_pages in Hrepo as (t & pages & ? & _ & _ & ?).
    eauto.
Qed.

(** X9: when no page comes back empty, discovery asks for at most 200
    pages: fuel for 200 iterations is never used up. *)
Theorem discovery_needs_at_most_200_requests (fuel : nat) st :
  (forall after w, Facts.brings_something (fst (search_post after w)) = true) ->
  (200 <= fuel)%nat ->
  get_top_200_repos fuel st <> OutOfFuel.
Proof.
  intros Hpages Hfuel. unfold GetRepos.get_top_200_repos.
  assert (Hgen : forall fuel repos cursor has_next st,
    200 - Z.of_nat (length repos) <= Z.of_nat fuel ->
    search_loop fuel repos cursor has_next st <> OutOfFuel).
  { clear fuel st Hfuel. induction fuel as [|fuel IH];
      intros repos cursor has_next st Hleft; simpl.
    - destruct (has_next && _) eqn:Hcond; [|done].
      apply andb_true_iff in Hcond as [_ Hlen%Z.ltb_lt]. lia.
    - destruct (has_next && _) eqn:Hcond; [|done].
      unfold post_search.
      specialize (Hpages (after_of cursor) (world st)).
      destruct (search_post _ _) as [r w]. simpl in Hpages.
      destruct r as [| |code [|edges hasNext endCursor]]; try done;
        destruct (code =? 200) eqn:Hcode; simpl; try done.
      apply IH. rewrite length_app.
      destruct edges; [simpl in Hpages; by rewrite Hcode in Hpages|].
      simpl. lia. }
  apply Hgen. simpl. lia.
Qed.

(** X10: when no page comes back empty, a repository is asked for at
    most [max_prs_per_repo] pages, whatever the clock does: that much
    fuel, and one unit at least, is never used up. *)
Theorem repo_needs_at_most_max_prs_requests (fuel : nat)
    (max_prs repo_timeout : Z) (repo : Raw.Repo) m st :
  (forall q w, Facts.brings_something (fst (prs_post q w)) = true) ->
  (1 <= fuel)%nat ->
  max_prs <= Z.of_nat fuel ->
  collect_repo fuel max_prs repo_timeout repo m st <> OutOfFuel.
Proof.
  intros Hpages Hone Hfuel.
  assert (Hgen : forall fuel key owner name start_time cursor has_next m st,
    (1 <= fuel)%nat ->
    max_prs - Z.of_nat (length (entry m key)) <= Z.of_nat fuel ->
    pages_loop fuel max_prs repo_timeout key owner name start_time cursor
      has_next m st <> OutOfFuel).
  { clear fuel m st Hone Hfuel. induction fuel as [|fuel IH];
      intros key owner name start_time cursor has_next m st Hone Hleft;
      [lia|].
    simpl. destruct (has_next && _) eqn:Hcond; [|done].
    apply andb_true_iff in Hcond as [_ Hlen%Z.ltb_lt].
    unfold now, post_prs. destruct (time_time (world st)) as [t w].
    destruct (repo_timeout <? t - start_time); [done|]. simpl.
    specialize (Hpages {| q_owner := owner; q_name := name;
                          q_after := after_of cursor |} w).
    destruct (prs_post _ w) as [r w']. simpl in Hpages.
    destruct r as [| |code [|edges hasNext endCursor]]; try done;
      destruct (code =? 200) eqn:Hcode; simpl; try done.
    destruct edges as [|edge edges];
      [simpl in Hpages; by rewrite Hcode in Hpages|].
    destruct fuel as [|fuel].
    - simpl. rewrite entry_insert, length_app. simpl.
      replace (_ <? max_prs) with false; [by rewrite andb_false_r|].
      symmetry. apply Z.ltb_ge. lia.
    - apply IH; [lia|]. rewrite entry_insert, length_app. simpl. lia. }
  unfold GetRepos.collect_repo.
  destruct (owner_name _) as [[owner name]|]; [|done].
  unfold now. destruct (time_time (world st)) as [t w].
  destruct (pages_loop _ _ _ _ _ _ _ _ _ _ _) as [[m2 st2]| |] eqn:Hrun;
    try done.
  exfalso. revert Hrun. apply Hgen; [done|].
  rewrite entry_insert. simpl. lia.
Qed.

Lemma repos_loop_keys fuel max_prs repo_timeout repos index todo
    m st m' st' :
  repos_loop fuel max_prs repo_timeout repos index todo m st
    = Done (m', st') ->
  forall k, is_Some (m' !! k)
            <-> is_Some (m !! k) \/ k ∈ Raw.nameWithOwner <$> todo.
Proof.
  revert index m st. induction todo as [|repo rest IH]; intros index m st;
    cbn [repos_loop].
  - intros [= <- <-] k. rewrite fmap_nil, elem_of_nil. tauto.
  - destruct (GetRepos.collect_repo _ _ _ _ _ _ _ _ _ _) as [[m1 st1]| |]
      eqn:Hrepo; [|discriminate..].
    destruct (checkpoint _ _ _ _ _) as [st2|]; [|discriminate].
    intros Hrest k. rewrite (IH _ _ _ Hrest k), fmap_cons, elem_of_cons.
    apply collect_repo_result in Hrepo
      as (_ & _ & l & _ & _ & _ & _ & Hkey & Hother).
    destruct (decide (k = Raw.nameWithOwner repo)) as [->|Hk].
    + rewrite Hkey. split; [auto|]. intros _. left. by eexists.
    + rewrite (Hother k Hk). tauto.
Qed.

Lemma result_map_keys_aux start_index fuel repos max_repos max_prs
    repo_timeout st m st' k :
  get_pull_requests_for_repos start_index fuel repos max_repos max_prs
    repo_timeout st = Done (m, st') ->
  is_Some (m !! k) ->
  k ∈ Raw.nameWithOwner <$> slice_from (start_index - 1) repos.
Proof.
  intros H Hk. apply repos_loop_keys with (k := k) in H.
  apply H in Hk as [[? Hk]|Hk]; [|done]. by rewrite lookup_empty in Hk.
Qed.

(** X11: the map that collection returns has an entry, possibly empty,
    for each repository from the resume offset on, and for nothing
    else. *)
Theorem result_map_keys (start_index : Z) (fuel : nat)
    (repos : list Raw.Repo) (max_repos max_prs repo_timeout : Z)
    st m st' :
  get_pull_requests_for_repos start_index fuel repos max_repos max_prs
    repo_timeout st = Done (m, st') ->
  forall k, is_Some (m !! k)
            <-> k ∈ Raw.nameWithOwner <$> slice_from (start_index - 1) repos.
Proof.
  intros H k. apply repos_loop_keys with (k := k) in H.
  rewrite H, lookup_empty. split; [|auto].
  intros [[? ?]|?]; [discriminate|done].
Qed.





Lemma Forall2_elem_of_r {A B} (P : A -> B -> Prop) l k y :
  Forall2 P l k -> y ∈ k -> exists x, x ∈ l /\ P x y.
Proof.
  induction 1 as [|x y' l k Hxy _ IH]; intros Hin.
  - by apply elem_of_nil in Hin.
  - apply elem_of_cons in Hin as [->|Hin].
    + exists x. split; [by left|done].
    + destruct (IH Hin) as (x' & ? & ?). exists x'. split; [by right|done].
Qed.

(** X13: the file that the whole program writes last,
    [repos_and_prs.json], holds only repositories from position
    [START_INDEX] on, each with at least one pull request: what was
    discovered before the resume offset is not in it. *)
Theorem final_file_starts_at_the_offset (fuel : nat) st st' :
  main fuel st = Done st' ->
  exists repos st1 before data,
    get_top_200_repos fuel st = Done (repos, st1)
    /\ log st' = before ++ [EvWrite "repos_and_prs.json" (FDataset data)]
    /\ forall e, e ∈ data ->
         nameWithOwner e
           ∈ Raw.nameWithOwner <$> slice_from (START_INDEX - 1) repos
         /\ exists pr prs, pullRequests e = Some (pr :: prs).
Proof.
  unfold GetRepos.main.
  destruct (GetRepos.get_top_200_repos _ _ _ _ _) as [[repos st1]| |];
    [|discriminate..].
  destruct (GetRepos.get_pull_requests_for_repos _ _ _ _ _ _ _ _ _ _ _)
    as [[m st2]| |] eqn:Hrun; [|discriminate..].
  unfold GetRepos.save_repos_and_prs_to_json.
  destruct (build_data repos m []) as [data|] eqn:Hdata; simpl;
    [|discriminate].
  intros [= <-]. exists repos, st1, (log st2), data.
  split; [done|]. split; [done|]. intros e He.
  apply build_data_result in Hdata as (new & -> & Hall).
  destruct (Forall2_elem_of_r _ _ _ _ Hall He)
    as (repo & Hrepo & Hname & _ & _ & prs & Hprs & Hnorm).
  apply list_elem_of_In, filter_In in Hrepo as [_ Hhas].
  unfold Spec.has_records in Hhas.
  destruct (m !! Raw.nameWithOwner repo) as [[|edge raw]|] eqn:Hm;
    try discriminate.
  split.
  - rewrite Hname. eapply result_map_keys_aux; [exact Hrun|]. by eexists.
  - simpl in Hnorm. inversion Hnorm; subst. eauto.
Qed.

End Pages.

(** * Further properties of the filter, and of the two stages together *)

Section FilterMore.

Import GetRepos.

Variable fromisoformat : string -> py datetime.

Local Abbreviation keeps := (BuildDataset.keeps fromisoformat).
Local Abbreviation filter_prs_loop :=
  (BuildDataset.filter_prs_loop fromisoformat).
Local Abbreviation surviving := (BuildDataset.surviving fromisoformat).
Local Abbreviation filter_repos_loop :=
  (BuildDataset.filter_repos_loop fromisoformat).
Local Abbreviation filter_data := (BuildDataset.filter_data fromisoformat).
Local Abbreviation filter_pull_requests :=
  (BuildDataset.filter_pull_requests fromisoformat).
Local Abbreviation survives := (Spec.survives fromisoformat).
Local Abbreviation survivors := (Spec.survivors fromisoformat).
Local Abbreviation retained := (Spec.retained fromisoformat).

Lemma truthy_unset (x : jfield string) :
  Facts.unset x = true -> truthy (get_default x "") = false.
Proof. by destruct x as [| |[|? ?]]. Qed.

(** X14: a pull request that the upstream delivers without a close time
    and without a merge time (missing, [null] or empty) never reaches
    the filter's output, whatever its reviews and comments. *)
Theorem unresolved_raw_record_is_dropped (pr : Raw.Edge) (r : PullRequest)
    (prs out : list PullRequest) :
  normalize pr = Ret r ->
  (forall n, Raw.node pr = Val n ->
             Facts.unset (Raw.closedAt n) = true
             /\ Facts.unset (Raw.mergedAt n) = true) ->
  filter_prs_loop prs [] = Ret out ->
  r ∉ out.
Proof.
  intros Hnorm Hunset Hrun Hin.
  apply filter_prs_loop_filter in Hrun. simpl in Hrun. subst out.
  apply list_elem_of_In, filter_In in Hin as [_ Hs].
  revert Hnorm Hs. unfold normalize.
  destruct (Raw.node pr) as [| |n] eqn:Hnode; [|discriminate|];
    intros [= <-]; unfold Spec.survives, Spec.resolution_time; simpl.
  - discriminate.
  - destruct (Hunset n eq_refl) as [Hc Hm].
    rewrite (truthy_unset _ Hc), (truthy_unset _ Hm), andb_false_r.
    discriminate.
Qed.

Lemma count_of_conforming (x : jfield Raw.Count) :
  Spec.count_ok x = true ->
  get_default (Raw.totalCount (or_empty x)) 0 = Some (Facts.raw_count x).
Proof. by destruct x as [| |[[| |n]]]. Qed.

(** X15: on a record normalised from one of the upstream's shape, the
    filter's test for reviews or comments never raises, and it says
    yes exactly when the raw record counts a review or a comment. *)
Theorem engagement_follows_raw_counts (pr : Raw.Edge) (n : Raw.Node)
    (r : PullRequest) :
  Spec.conforms pr = true ->
  Raw.node pr = Val n ->
  normalize pr = Ret r ->
  BuildDataset.has_reviews r
  = Ret ((0 <? Facts.raw_count (Raw.reviews n))
         || (0 <? Facts.raw_count (Raw.comments n))).
Proof.
  unfold Spec.conforms, normalize. intros Hok Hnode. rewrite Hnode in *.
  apply andb_true_iff in Hok as [Hok Hc].
  apply andb_true_iff in Hok as [Hok _].
  apply andb_true_iff in Hok as [Hok _].
  apply andb_true_iff in Hok as [_ Hr].
  intros [= <-]. unfold BuildDataset.has_reviews. simpl.
  rewrite (count_of_conforming _ Hr), (count_of_conforming _ Hc). simpl.
  by destruct (0 <? Facts.raw_count (Raw.reviews n)).
Qed.

(** X16: the test for reviews or comments raises, with [TypeError], in
    two cases only: the review count is [null], or the review count is
    not positive and the comment count is [null]. A positive review
    count settles the test without the comment count being looked at. *)
Theorem has_reviews_raises_iff (pr : PullRequest) (e : exn) :
  BuildDataset.has_reviews pr = Raise e <->
  e = TypeError
  /\ (reviewCount pr = None
      \/ (exists k, reviewCount pr = Some k /\ k <= 0)
         /\ commentsCount pr = None).
Proof.
  unfold BuildDataset.has_reviews, BuildDataset.gt0.
  destruct (reviewCount pr) as [k|]; simpl.
  - destruct (Z.ltb_spec 0 k).
    + split; [discriminate|].
      intros (_ & [?|[(k' & [= <-] & ?) _]]); [discriminate|lia].
    + destruct (commentsCount pr); split; try discriminate.
      * intros (_ & [?|[_ ?]]); discriminate.
      * intros [= <-]. split; [done|]. right. split; [|done]. by exists k.
      * by intros [-> _].
  - split; [intros [= <-]; auto|]. by intros [-> _].
Qed.

(** X17: the filter touches two files at most: whatever the run does,
    every file other than [output_filename] and [repos_names.json] is
    left as it was, the input included. *)
Theorem filter_leaves_other_files (input output f : string)
    (fs : gmap string File) :
  f <> output ->
  f <> "repos_names.json" ->
  fst (filter_pull_requests input output fs) !! f = fs !! f.
Proof.
  intros Ho Hn. unfold BuildDataset.filter_pull_requests.
  destruct (fs !! input) as [file|]; [|done].
  destruct (Py.bind _ _) as [[filtered names]|]; [|done].
  destruct filtered; [done|]. simpl.
  by rewrite !lookup_insert_ne.
Qed.


Lemma sublist_List_filter {A} (f : A -> bool) (l : list A) :
  List.filter f l `sublist_of` l.
Proof.
  induction l as [|x l IH]; simpl; [constructor|].
  destruct (f x); by constructor.
Qed.

(** X19: the filter only prunes: the names it returns are names of the
    input in their input order, and each repository it returns is an
    input repository, same name, stars and URL, with some of its pull
    requests left out and the others unchanged and in order. *)
Theorem filter_only_prunes (data filtered : list Repository)
    (names : list string) :
  filter_data data = Ret (filtered, names) ->
  names `sublist_of` (nameWithOwner <$> data)
  /\ forall e, e ∈ filtered ->
       exists r prs,
         r ∈ data /\ nameWithOwner e = nameWithOwner r
         /\ stars e = stars r /\ repo_url e = repo_url r
         /\ pullRequests e = Some prs
         /\ prs `sublist_of` BuildDataset.prs_of r.
Proof.
  intros H. apply filter_repos_loop_retained in H. injection H as -> ->.
  simpl. split.
  - clear. induction data as [|r data IH]; simpl; [constructor|].
    unfold Spec.retained at 1.
    destruct (20 <=? _); simpl; by constructor.
  - intros e He. apply elem_of_retained in He as (r & Hr & _ & ->).
    exists r, (survivors r). simpl. repeat split; try done.
    apply sublist_List_filter.
Qed.

Lemma filter_repos_loop_acc data fd names :
  filter_repos_loop data fd names
  = match filter_repos_loop data [] [] with
    | Ret (f, n) => Ret (fd ++ f, names ++ n)
    | Raise e => Raise e
    end.
Proof.
  revert fd names. induction data as [|repo data IH]; intros fd names;
    simpl.
  - by rewrite !app_nil_r.
  - destruct (surviving repo) as [kept|]; simpl; [|done].
    destruct (20 <=? Z.of_nat (length kept)); [|apply IH].
    rewrite (IH (fd ++ _)), (IH [_]).
    destruct (filter_repos_loop data [] []) as [[f n]|]; [|done].
    by rewrite <- !app_assoc.
Qed.

Lemma filter_repos_loop_app d1 d2 fd names :
  filter_repos_loop (d1 ++ d2) fd names
  = match filter_repos_loop d1 fd names with
    | Ret (f, n) => filter_repos_loop d2 f n
    | Raise e => Raise e
    end.
Proof.
  revert fd names. induction d1 as [|repo d1 IH]; intros fd names; simpl;
    [done|].
  destruct (surviving repo) as [kept|]; simpl; [|done].
  destruct (20 <=? Z.of_nat (length kept)); apply IH.
Qed.

(** X20: repositories are filtered independently of one another:
    filtering two datasets joined is filtering each and joining the
    results, and it raises when either does. *)
Theorem filter_data_app (d1 d2 : list Repository) :
  filter_data (d1 ++ d2)
  = match filter_data d1 with
    | Ret (f1, n1) =>
        match filter_data d2 with
        | Ret (f2, n2) => Ret (f1 ++ f2, n1 ++ n2)
        | Raise e => Raise e
        end
    | Raise e => Raise e
    end.
Proof.
  unfold BuildDataset.filter_data. rewrite filter_repos_loop_app.
  destruct (filter_repos_loop d1 [] []) as [[f1 n1]|]; [|done].
  apply filter_repos_loop_acc.
Qed.

Lemma filter_prs_loop_raises prs acc pr e :
  pr ∈ prs -> keeps pr = Raise e ->
  exists e', filter_prs_loop prs acc = Raise e'.
Proof.
  intros Hin Hpr. revert acc.
  induction prs as [|p prs IH]; intros acc; [by apply elem_of_nil in Hin|].
  simpl. destruct (keeps p) as [b|e'] eqn:Hp; simpl; [|eauto].
  apply elem_of_cons in Hin as [->|Hin]; [congruence|]. by apply IH.
Qed.

(** X21: one unreadable record spoils the whole run: if the loop body
    raises on any pull request of any repository, the filter raises and
    writes nothing, however many repositories would have qualified. *)
Theorem one_bad_record_aborts_the_filter (data : list Repository)
    (repo : Repository) (pr : PullRequest) (e : exn) :
  repo ∈ data ->
  pr ∈ BuildDataset.prs_of repo ->
  keeps pr = Raise e ->
  exists e',
    filter_data data = Raise e'
    /\ forall input output fs,
         fs !! input = Some (FDataset data) ->
         filter_pull_requests input output fs = (fs, Raise e').
Proof.
  intros Hrepo Hpr Hraise.
  assert (exists e', filter_data data = Raise e') as [e' He'].
  { unfold BuildDataset.filter_data. generalize (@nil Repository).
    generalize (@nil string).
    induction data as [|r data IH]; intros names fd;
      [by apply elem_of_nil in Hrepo|].
    simpl. destruct (surviving r) as [kept|e'] eqn:Hr; simpl; [|eauto].
    apply elem_of_cons in Hrepo as [->|Hrepo].
    - destruct (filter_prs_loop_raises _ [] _ _ Hpr Hraise) as [e' He'].
      unfold BuildDataset.surviving in Hr. congruence.
    - destruct (20 <=? _); by apply IH. }
  exists e'. split; [done|]. intros input output fs Hin.
  unfold BuildDataset.filter_pull_requests. rewrite Hin. simpl.
  by rewrite He'.
Qed.

End FilterMore.

Section Timestamps.

Variable fromisoformat : string -> py datetime.

Local Abbreviation keeps := (BuildDataset.keeps fromisoformat).
Local Abbreviation parse := (BuildDataset.parse fromisoformat).
Local Abbreviation parse_if := (BuildDataset.parse_if fromisoformat).

Lemma replace_Z_no_Z s : Facts.has_Z (replace_Z s) = false.
Proof.
  induction s as [|c s IH]; simpl; [done|].
  destruct (Ascii.eqb c "Z") eqn:Hc; simpl; [done|]. by rewrite Hc.
Qed.

Lemma replace_Z_id s : Facts.has_Z s = false -> replace_Z s = s.
Proof.
  induction s as [|c s IH]; simpl; [done|].
  destruct (Ascii.eqb c "Z"); simpl; [done|]. intros H. by rewrite IH.
Qed.

Lemma replace_Z_app s t :
  replace_Z (s ++ t)%string = (replace_Z s ++ replace_Z t)%string.
Proof.
  induction s as [|c s IH]; simpl; [done|].
  destruct (Ascii.eqb c "Z"); simpl; by rewrite IH.
Qed.

(** X22: how a timestamp is prepared for the parser: a text free of [Z]
    followed by [Z] becomes that text followed by [+00:00]; a text free
    of [Z] is handed over as it is; and in no case does a [Z] remain, so
    that preparing twice is preparing once. *)
Theorem replace_Z_prepares_utc (s : string) :
  Facts.has_Z s = false ->
  replace_Z (s ++ "Z")%string = (s ++ "+00:00")%string
  /\ replace_Z s = s
  /\ forall t, Facts.has_Z (replace_Z t) = false
               /\ replace_Z (replace_Z t) = replace_Z t.
Proof.
  intros Hs. split; [|split].
  - by rewrite replace_Z_app, (replace_Z_id _ Hs).
  - by apply replace_Z_id.
  - intros t. split; [apply replace_Z_no_Z|].
    apply replace_Z_id, replace_Z_no_Z.
Qed.

Lemma truthy_replace_Z x : truthy (replace_Z <$> x) = truthy x.
Proof.
  destruct x as [[|c s]|]; simpl; [done| |done].
  by destruct (Ascii.eqb c "Z").
Qed.

Lemma parse_replace_Z x : parse (replace_Z <$> x) = parse x.
Proof.
  destruct x as [s|]; simpl; [|done].
  by rewrite (replace_Z_id _ (replace_Z_no_Z s)).
Qed.

(** X23: the filter reads [Z] and [+00:00] alike: writing the
    timestamps of a record with the offset in place of [Z] changes
    neither its verdict nor the exception it raises. *)
Theorem verdict_ignores_Z_spelling (pr : PullRequest) :
  keeps (Facts.with_offsets pr) = keeps pr.
Proof.
  unfold BuildDataset.keeps, BuildDataset.parse_if,
    BuildDataset.has_reviews. simpl.
  by rewrite !truthy_replace_Z, !parse_replace_Z.
Qed.

End Timestamps.

Section Checkpointing.

Import GetRepos.

Variable World : Type.
Variable prs_post : Query -> World -> Post Raw.Edge * World.
Variable time_time : World -> Z * World.
Variable time_sleep : Z -> World -> World.

Local Abbreviation collect_repo :=
  (GetRepos.collect_repo World prs_post time_time time_sleep).
Local Abbreviation repos_loop :=
  (GetRepos.repos_loop World prs_post time_time time_sleep).

Implicit Types (st : State World) (m : gmap string (list Raw.Edge)).

(** X24: collecting one repository changes the records of no other:
    every entry of the map under another name is as it was. *)
Theorem collecting_leaves_other_entries (fuel : nat)
    (max_prs repo_timeout : Z) (repo : Raw.Repo) m st m' st' (k : string) :
  collect_repo fuel max_prs repo_timeout repo m st = Done (m', st') ->
  k <> Raw.nameWithOwner repo ->
  m' !! k = m !! k.
Proof.
  intros H Hk.
  apply collect_repo_result in H as (_ & _ & _ & _ & _ & _ & _ & _ & Ho).
  by apply Ho.
Qed.

Lemma repos_loop_other_keys fuel max_prs repo_timeout repos index todo
    m st m' st' k :
  repos_loop fuel max_prs repo_timeout repos index todo m st
    = Done (m', st') ->
  k ∉ Raw.nameWithOwner <$> todo ->
  m' !! k = m !! k.
Proof.
  revert index m st. induction todo as [|repo rest IH]; intros index m st;
    cbn [repos_loop].
  - by intros [= <- <-].
  - destruct (GetRepos.collect_repo _ _ _ _ _ _ _ _ _ _) as [[m1 st1]| |]
      eqn:Hrepo; [|discriminate..].
    destruct (checkpoint _ _ _ _ _) as [st2|]; [|discriminate].
    intros Hrest Hk. rewrite fmap_cons, not_elem_of_cons in Hk.
    destruct Hk as [Hk Hrestk]. rewrite (IH _ _ _ Hrest Hrestk).
    apply collect_repo_result in Hrepo
      as (_ & _ & _ & _ & _ & _ & _ & _ & Ho).
    by apply Ho.
Qed.

Lemma build_data_agree repos m1 m2 acc :
  (forall repo, repo ∈ repos ->
     m2 !! Raw.nameWithOwner repo = m1 !! Raw.nameWithOwner repo) ->
  build_data repos m2 acc = build_data repos m1 acc.
Proof.
  revert acc. induction repos as [|repo repos IH]; intros acc Hsame;
    cbn [build_data]; [done|].
  rewrite (Hsame repo) by by left.
  assert (Hrest : forall acc',
    build_data repos m2 acc' = build_data repos m1 acc').
  { intros acc'. apply IH. intros r Hr. apply Hsame. by right. }
  destruct (default [] (m1 !! Raw.nameWithOwner repo)); [apply Hrest|].
  destruct (normalize_loop _ _); simpl; [apply Hrest|done].
Qed.

Lemma build_data_app r1 r2 m acc :
  build_data (r1 ++ r2) m acc
  = (data <- build_data r1 m acc ;; build_data r2 m data).
Proof.
  revert acc. induction r1 as [|repo r1 IH]; intros acc;
    cbn [app build_data]; [done|].
  destruct (default [] (m !! Raw.nameWithOwner repo)); [apply IH|].
  destruct (normalize_loop _ _); simpl; [apply IH|done].
Qed.

(** X25: a later save extends an earlier one. If the repositories
    processed in between bear none of the names saved earlier, then
    what is saved afterwards for a longer list begins with exactly what
    was saved before for the shorter one. *)
Theorem later_save_extends_earlier (fuel : nat) (max_prs repo_timeout : Z)
    (repos : list Raw.Repo) (index : Z) (between : list Raw.Repo)
    m1 st1 m2 st2 (earlier more : list Raw.Repo)
    (data1 data2 : list Repository) :
  repos_loop fuel max_prs repo_timeout repos index between m1 st1
    = Done (m2, st2) ->
  (forall repo, repo ∈ earlier ->
     Raw.nameWithOwner repo ∉ Raw.nameWithOwner <$> between) ->
  build_data earlier m1 [] = Ret data1 ->
  build_data (earlier ++ more) m2 [] = Ret data2 ->
  data1 `prefix_of` data2.
Proof.
  intros Hrun Hfresh H1 H2.
  rewrite build_data_app, (build_data_agree earlier m1 m2), H1 in H2.
  - simpl in H2. apply build_data_result in H2 as (new & -> & _).
    by exists new.
  - intros repo Hrepo. eapply repos_loop_other_keys; [exact Hrun|].
    by apply Hfresh.
Qed.

End Checkpointing.

(** * The further properties at work on the samples *)

Section MoreInstances.

Import GetRepos.

Lemma partial_filename_inj_witness :
  partial_filename 20 = partial_filename 20 /\ 20 = 20.
Proof.
  split; [reflexivity|]. exact (partial_filename_inj 20 20 eq_refl).
Defined.

Lemma one_repo_done :
  Sample.one_repo
  = Done (Sample.value ∅ Sample.one_repo, Sample.final Sample.one_repo).
Proof. vm_compute. reflexivity. Qed.

Lemma collected_records_are_the_pages_witness :
  exists start_time pages,
    log (Sample.final Sample.one_repo)
    = log Sample.start ++ EvTime start_time :: pages
    /\ Sample.value ∅ Sample.one_repo !! "org/r1"
       = Some (slice_to 100 (Facts.pages_of pages)).
Proof.
  exact (collected_records_are_the_pages Sample.World Sample.prs_post
           Sample.time_time Sample.time_sleep 10 100 90
           (Sample.repo_named "org/r1") ∅ Sample.start _ _ one_repo_done).
Defined.

Lemma pagination_is_followed_witness :
  exists start_time pages,
    log (Sample.final Sample.one_repo)
    = log Sample.start ++ EvTime start_time :: pages
    /\ Facts.paged 100 0 None true pages = true.
Proof.
  exact (pagination_is_followed Sample.World Sample.prs_post
           Sample.time_time Sample.time_sleep 10 100 90
           (Sample.repo_named "org/r1") ∅ Sample.start _ _ one_repo_done).
Defined.

Lemma discovery_done :
  Sample.discovery
  = Done (Sample.value [] Sample.discovery, Sample.final Sample.discovery).
Proof. vm_compute. reflexivity. Qed.

Lemma discovered_repos_are_the_pages_witness :
  exists tr,
    log (Sample.final Sample.discovery) = log Sample.start ++ tr
    /\ Sample.value [] Sample.discovery
       = slice_to 200 (Facts.search_pages tr).
Proof.
  exact (discovered_repos_are_the_pages Sample.World Sample.search_post
           Sample.time_sleep 5 Sample.start _ _ discovery_done).
Defined.

Lemma search_pagination_is_followed_witness :
  exists tr,
    log (Sample.final Sample.discovery) = log Sample.start ++ tr
    /\ Facts.search_paged 0 None true tr = true.
Proof.
  exact (search_pagination_is_followed Sample.World Sample.search_post
           Sample.time_sleep 5 Sample.start _ _ discovery_done).
Defined.

Lemma every_page_is_followed_by_a_pause_witness :
  (exists tr, log (Sample.final Sample.discovery) = log Sample.start ++ tr
              /\ Facts.paused tr = true)
  /\ (exists start_time pages,
        log (Sample.final Sample.one_repo)
        = log Sample.start ++ EvTime start_time :: pages
        /\ Facts.paused pages = true).
Proof.
  exact (every_page_is_followed_by_a_pause Sample.World Sample.search_post
           Sample.prs_post Sample.time_time Sample.time_sleep
           5 Sample.start _ _ 10 100 90 (Sample.repo_named "org/r1") ∅
           Sample.start _ _ discovery_done one_repo_done).
Defined.

Lemma sample_search_brings_something after w :
  Facts.brings_something (fst (Sample.search_post after w)) = true.
Proof. by destruct after. Qed.

Lemma sample_pages_bring_something q w :
  Facts.brings_something (fst (Sample.prs_post q w)) = true.
Proof.
  unfold Sample.prs_post. by repeat destruct (String.eqb _ _).
Qed.

Lemma discovery_needs_at_most_200_requests_witness :
  Sample.out_of_fuel (Sample.get_top_200_repos 200 Sample.start) = false.
Proof.
  destruct (Sample.get_top_200_repos 200 Sample.start) eqn:Hrun;
    [reflexivity..|].
  exfalso. revert Hrun.
  apply (discovery_needs_at_most_200_requests Sample.World
           Sample.search_post Sample.time_sleep 200 Sample.start).
  - apply sample_search_brings_something.
  - lia.
Defined.

Lemma repo_needs_at_most_max_prs_requests_witness :
  Sample.out_of_fuel
    (GetRepos.collect_repo Sample.World Sample.prs_post Sample.time_time
       Sample.time_sleep 100 100 90 (Sample.repo_named "org/r1") ∅
       Sample.start) = false.
Proof.
  destruct (GetRepos.collect_repo _ _ _ _ _ _ _ _ _ _) eqn:Hrun;
    [reflexivity..|].
  exfalso. revert Hrun.
  apply (repo_needs_at_most_max_prs_requests Sample.World Sample.prs_post
           Sample.time_time Sample.time_sleep 100 100 90).
  - apply sample_pages_bring_something.
  - lia.
  - lia.
Defined.

Lemma collection_done :
  Sample.collection
  = Done (Sample.value ∅ Sample.collection, Sample.final Sample.collection).
Proof. vm_compute. reflexivity. Qed.

Lemma result_map_keys_witness :
  is_Some (Sample.value ∅ Sample.collection !! "down/r3")
  <-> "down/r3"
        ∈ Raw.nameWithOwner <$> slice_from (1 - 1) Sample.ten_repos.
Proof.
  exact (result_map_keys Sample.World Sample.prs_post Sample.time_time
           Sample.time_sleep 1 10 Sample.ten_repos 200 100 90 Sample.start
           _ _ collection_done "down/r3").
Defined.

Lemma main_run_done : Sample.main_run = Done (Sample.ended Sample.main_run).
Proof. vm_compute. reflexivity. Qed.

Lemma final_file_starts_at_the_offset_witness :
  exists repos st1 before data,
    GetRepos.get_top_200_repos Sample.World Sample.small_search_post
      Sample.time_sleep 10 Sample.start = Done (repos, st1)
    /\ log (Sample.ended Sample.main_run)
       = before ++ [EvWrite "repos_and_prs.json" (FDataset data)]
    /\ forall e, e ∈ data ->
         nameWithOwner e
           ∈ Raw.nameWithOwner <$> slice_from (START_INDEX - 1) repos
         /\ exists pr prs, pullRequests e = Some (pr :: prs).
Proof.
  exact (final_file_starts_at_the_offset Sample.World
           Sample.small_search_post Sample.prs_post Sample.time_time
           Sample.time_sleep 10 Sample.start _ main_run_done).
Defined.

Lemma unresolved_raw_record_is_dropped_witness :
  let r := Sample.got Sample.open_pr (normalize Sample.open_raw) in
  normalize Sample.open_raw = Ret r /\ r ∉ [Sample.merged_pr 30].
Proof.
  intros r. split; [reflexivity|].
  apply (unresolved_raw_record_is_dropped Sample.fromisoformat
           Sample.open_raw r [Sample.merged_pr 30; r]
           [Sample.merged_pr 30]).
  - reflexivity.
  - intros n [= <-]. split; reflexivity.
  - vm_compute. reflexivity.
Defined.

Lemma engagement_follows_raw_counts_witness :
  let r := Sample.got Sample.open_pr (normalize Sample.open_raw) in
  Spec.conforms Sample.open_raw = true
  /\ normalize Sample.open_raw = Ret r
  /\ BuildDataset.has_reviews r = Ret true.
Proof.
  intros r. split; [reflexivity|]. split; [reflexivity|].
  exact (engagement_follows_raw_counts Sample.open_raw _ r
           eq_refl eq_refl eq_refl).
Defined.

Lemma filter_leaves_other_files_witness :
  let fs := Sample.disk Sample.dataset in
  fst (BuildDataset.main Sample.fromisoformat fs) !! "repos_and_prs.json"
  = fs !! "repos_and_prs.json".
Proof.
  intros fs.
  apply (filter_leaves_other_files Sample.fromisoformat
           "repos_and_prs.json" "filtered_prs.json" "repos_and_prs.json" fs);
    discriminate.
Defined.

Lemma sample_dataset_filtered :
  BuildDataset.filter_data Sample.fromisoformat Sample.dataset
  = Ret (Sample.filtered_dataset, ["a/b"]).
Proof. vm_compute. reflexivity. Qed.


Lemma filter_only_prunes_witness :
  ["a/b"] `sublist_of` (nameWithOwner <$> Sample.dataset).
Proof.
  exact (proj1 (filter_only_prunes Sample.fromisoformat Sample.dataset
                  Sample.filtered_dataset ["a/b"] sample_dataset_filtered)).
Defined.

Lemma one_bad_record_aborts_the_filter_witness :
  exists e',
    BuildDataset.filter_data Sample.fromisoformat Sample.spoiled_dataset
    = Raise e'.
Proof.
  destruct (one_bad_record_aborts_the_filter Sample.fromisoformat
              Sample.spoiled_dataset
              {| nameWithOwner := "e/f"; stars := 10;
                 repo_url := "https://example.org/e/f";
                 pullRequests := Some [Sample.undated_pr] |}
              Sample.undated_pr AttributeError) as (e' & He' & _).
  - right. left.
  - left.
  - reflexivity.
  - by exists e'.
Defined.

Lemma replace_Z_prepares_utc_witness :
  replace_Z "2024-03-01T12:00:00Z" = "2024-03-01T12:00:00+00:00"
  /\ replace_Z "2024-03-01T12:00:00+00:00" = "2024-03-01T12:00:00+00:00".
Proof.
  split.
  - exact (proj1 (replace_Z_prepares_utc "2024-03-01T12:00:00" eq_refl)).
  - exact (proj1 (proj2 (replace_Z_prepares_utc
                           "2024-03-01T12:00:00+00:00" eq_refl))).
Defined.

Lemma collecting_leaves_other_entries_witness :
  Sample.value ∅ Sample.one_repo !! "org/r2" = None.
Proof.
  rewrite (collecting_leaves_other_entries Sample.World Sample.prs_post
             Sample.time_time Sample.time_sleep 10 100 90
             (Sample.repo_named "org/r1") ∅ Sample.start _ _ "org/r2"
             one_repo_done); [reflexivity|discriminate].
Defined.

Lemma later_save_extends_earlier_witness :
  Sample.got [] Sample.saved_after_one
    `prefix_of` Sample.got [] Sample.saved_after_two.
Proof.
  apply (later_save_extends_earlier Sample.World Sample.prs_post
           Sample.time_time Sample.time_sleep 10 100 90 Sample.ten_repos 2
           [Sample.repo_named "org/r2"]
           (Sample.value ∅ Sample.one_repo) (Sample.final Sample.one_repo)
           (Sample.value ∅ Sample.two_repos) (Sample.final Sample.two_repos)
           [Sample.repo_named "org/r1"] [Sample.repo_named "org/r2"]).
  - vm_compute. reflexivity.
  - intros repo Hin. apply list_elem_of_singleton in Hin. subst repo.
    intros Hin. apply list_elem_of_singleton in Hin. discriminate.
  - vm_compute. reflexivity.
  - vm_compute. reflexivity.
Defined.

End MoreInstances.
